(** * Firefox keyword bookmarks plugin: the bookmark cache of [Plugin/core.py]

    A shallow embedding of [FirefoxKeywordBookmarks]: the store reader
    [get_bookmarks], the query handler [__call__], the context menu and
    [reload_cache], followed by the properties of the cache they maintain.

    Python values are modelled as follows.
    - [str] is [string], a character being one [ascii]; the empty string is
      written [EmptyString].
    - A row delivered by [sqlite3] is a tuple of column values, [list value];
      indexing past its end raises [IndexError], and a tuple is truthy when it
      is not empty.
    - A [dict] keyed by strings is a [gmap string _]; [dict.update] is the
      union that prefers the argument's entries.
    - An exception is a constructor of [exn]; code that can raise returns a
      [result].  Handlers that also change [self.cache] run in the monad
      [M], whose state survives a raise, as attribute assignments do.
    - The file system and the databases in it are the parameter [world]:
      what [sqlite3.connect(os.path.join(p, "places.sqlite"))] gives for the
      directory [p], and what the two SELECT statements give on the
      connection. *)

From Stdlib Require Import Ascii.
From stdpp Require Import gmap strings list fin_maps pretty.

Open Scope string_scope.
Open Scope list_scope.

(** ** Exceptions and the error monad *)

Inductive exn : Set :=
  | OperationalError   (* sqlite3.OperationalError *)
  | DatabaseError      (* a sqlite3.DatabaseError that is not an OperationalError *)
  | IndexError
  | ValueError
  | AttributeError.

#[global] Instance exn_eq_dec : EqDecision exn.
Proof. solve_decision. Defined.

Inductive result (A : Type) : Type :=
  | Ok (a : A)
  | Raise (e : exn).
Arguments Ok {A} a.
Arguments Raise {A} e.

Definition rbind {A B : Type} (r : result A) (f : A -> result B) : result B :=
  match r with
  | Ok a => f a
  | Raise e => Raise e
  end.

Notation "x <-! r ; k" := (rbind r (fun x => k))
  (at level 100, r at next level, right associativity,
   format "x  <-!  r ;  '/' k").

(** ** Column values and tuples *)

Inductive value : Set :=
  | VNone
  | VInt (z : Z)
  | VStr (s : string).

#[global] Instance value_eq_dec : EqDecision value.
Proof. solve_decision. Defined.

(** [str(v)], as an f-string replacement field formats it. *)
Definition str (v : value) : string :=
  match v with
  | VNone => "None"
  | VInt z => pretty z
  | VStr s => s
  end.

Definition tuple : Type := list value.

(** [t[i]] on a tuple. *)
Definition index (t : tuple) (i : nat) : result value :=
  match t !! i with
  | Some v => Ok v
  | None => Raise IndexError
  end.

(** [bool(t)] for a tuple: [len(t) != 0]. *)
Definition truthy (t : tuple) : bool :=
  match t with
  | [] => false
  | _ :: _ => true
  end.

(** ** The stores *)

(** A connection answers the two statements the plugin issues:
    [SELECT * FROM moz_keywords] followed by [fetchall()], and
    [SELECT * FROM moz_places WHERE id = ?] followed by [fetchone()]. *)
Record connection : Type := mkConnection {
  moz_keywords : result (list tuple);
  moz_places : value -> result (option tuple)
}.

(** [world p] is the outcome of
    [sqlite3.connect(os.path.join(p, "places.sqlite"))]. *)
Definition world : Type := string -> result connection.

(** ** Result options shown by the launcher *)

(** One element of a [context_data] list; a dict keeps its items in
    insertion order. *)
Inductive ctx : Type :=
  | CtxValue (v : value)
  | CtxDict (items : list (string * value)).

Inductive Action : Type :=
  | Action_open_url (firefox_fp : option string) (profile_path : string) (url : value)
  | Action_api_open_settings_menu
  | Action_api_open_url (url : string)
  | Action_copy_text (text : value)
  | Action_reload_cache (profile_path : ctx) (firefox_fp : ctx)
  | Action_open_log_file_folder.

(** An [Option] of the launcher library, with the arguments the plugin
    passes; positional arguments are title, sub and icon, in this order, and
    an argument that is not passed is [None] here. *)
Record Option : Type := mkOption {
  title : string;
  sub : option value;
  icon : option string;
  action : option Action;
  context_data : option (list ctx)
}.

Definition of_opt_str (o : option string) : value :=
  match o with
  | Some s => VStr s
  | None => VNone
  end.

(** ** [get_bookmarks] *)

(** Lines 33-37: the prefix convention.  [profile_path[1]] raises
    [IndexError] on a string of fewer than two characters. *)
Definition split_prefix (profile_path : string) : result (string * string) :=
  match profile_path with
  | String c0 (String c1 rest) =>
      if Ascii.eqb c1 "|"%char
      then Ok (String c0 EmptyString, rest)
      else Ok (EmptyString, profile_path)
  | _ => Raise IndexError
  end.

Definition bookmark_option (firefox_fp : option string) (profile_path keyword : string)
    (url : value) : Option :=
  {| title := keyword;
     sub := Some url;
     icon := Some "Images/app.png";
     action := Some (Action_open_url firefox_fp profile_path url);
     context_data :=
       Some [CtxValue (VStr profile_path);
             CtxValue (of_opt_str firefox_fp);
             CtxDict [("keyword", VStr keyword); ("url", url)]] |}.

(** Lines 44-63: the body of the loop for one row of [moz_keywords]. *)
Definition add_row (con : connection) (prefix profile_path : string)
    (firefox_fp : option string) (final : gmap string Option)
    (keyword_data : tuple) : result (gmap string Option) :=
  if truthy keyword_data then
    place_id <-! index keyword_data 2;
    raw <-! index keyword_data 1;
    let keyword := prefix +:+ str raw in
    place <-! moz_places con place_id;
    match place with
    | Some p =>
        if truthy p then
          url <-! index p 1;
          Ok (<[keyword := bookmark_option firefox_fp profile_path keyword url]> final)
        else Ok final
    | None => Ok final
    end
  else Ok final.

Fixpoint add_rows (con : connection) (prefix profile_path : string)
    (firefox_fp : option string) (final : gmap string Option)
    (rows : list tuple) : result (gmap string Option) :=
  match rows with
  | [] => Ok final
  | keyword_data :: rows' =>
      final' <-! add_row con prefix profile_path firefox_fp final keyword_data;
      add_rows con prefix profile_path firefox_fp final' rows'
  end.

(** What [get_bookmarks] returns or raises. *)
Definition read_store (w : world) (profile_path : string)
    (firefox_fp : option string) : result (gmap string Option) :=
  pp <-! split_prefix profile_path;
  con <-! w pp.2;
  rows <-! moz_keywords con;
  add_rows con pp.1 pp.2 firefox_fp ∅ rows.

(** ** The plugin object *)

(** What the plugin does to the outside that the cache properties speak of:
    every call of [get_bookmarks] (its first statement logs the profile
    string it was given) and every notification it asks the host to show. *)
Inductive event : Type :=
  | GetBookmarks (profile_path : string)
  | ShowMessage (heading text icon_path : string).

(** [self.cache] is [None] until a load succeeds ([__init__], lines 23-25). *)
Record plugin : Type := mkPlugin {
  cache : option (gmap string Option);
  trace : list event
}.

Definition init : plugin := {| cache := None; trace := [] |}.

Definition is_loaded (st : plugin) : bool :=
  match cache st with
  | Some _ => true
  | None => false
  end.

(** State and exceptions: a raise keeps the assignments made before it. *)
Definition M (A : Type) : Type := plugin -> result A * plugin.

Definition ret {A : Type} (a : A) : M A := fun st => (Ok a, st).
Definition raise {A : Type} (e : exn) : M A := fun st => (Raise e, st).
Definition lift {A : Type} (r : result A) : M A := fun st => (r, st).

Definition bind {A B : Type} (m : M A) (f : A -> M B) : M B :=
  fun st =>
    match m st with
    | (Ok a, st') => f a st'
    | (Raise e, st') => (Raise e, st')
    end.

(** [try: m except exc: h] for a single exception class. *)
Definition try_except {A : Type} (m : M A) (exc : exn) (h : M A) : M A :=
  fun st =>
    match m st with
    | (Raise e, st') => if decide (e = exc) then h st' else (Raise e, st')
    | r => r
    end.

Definition get_cache : M (option (gmap string Option)) := fun st => (Ok (cache st), st).
Definition set_cache (c : option (gmap string Option)) : M unit :=
  fun st => (Ok tt, {| cache := c; trace := trace st |}).
Definition emit (e : event) : M unit :=
  fun st => (Ok tt, {| cache := cache st; trace := trace st ++ [e] |}).

Notation "x <- m ;; k" := (bind m (fun x => k))
  (at level 100, m at next level, right associativity,
   format "x  <-  m ;;  '/' k").
Notation "m ;; k" := (bind m (fun _ => k))
  (at level 100, right associativity, format "m ;;  '/' k").

(** Lines 27-65. *)
Definition get_bookmarks (w : world) (profile_path : string)
    (firefox_fp : option string) : M (gmap string Option) :=
  emit (GetBookmarks profile_path) ;;
  lift (read_store w profile_path firefox_fp).

(** ** [__call__] *)

(** The two settings; [None] stands for [SettingNotFound]. *)
Record Settings : Type := mkSettings {
  profile_path_data : option string;
  firefox_fp : option string
}.

Definition CR : ascii := "013"%char.
Definition LF : ascii := "010"%char.
Definition CRLF : string := String CR (String LF EmptyString).

(** [s.split("\r\n")]: cut at each occurrence of the separator, left to right. *)
Fixpoint split_crlf (s : string) : list string :=
  match s with
  | EmptyString => [EmptyString]
  | String c rest =>
      let keep :=
        match split_crlf rest with
        | [] => [String c EmptyString]
        | l :: ls => String c l :: ls
        end in
      match rest with
      | String c' rest' =>
          if Ascii.eqb c CR && Ascii.eqb c' LF
          then EmptyString :: split_crlf rest'
          else keep
      | EmptyString => keep
      end
  end.

Definition no_profile_option : Option :=
  {| title := "Error: No profile data path given";
     sub := Some (VStr "Open context menu for more options");
     icon := None;
     action := None;
     context_data := Some [CtxValue (VStr "NO_PROFILE_DATA_PATH_ERROR")] |}.

Definition unable_to_open_option (path : string) : Option :=
  {| title := "Error: Unable to open profile database file. Profile: " +:+ path;
     sub := Some (VStr "Are you sure the profile exists and is correct? Click this to open settings menu.");
     icon := Some "Images/app.png";
     action := Some Action_api_open_settings_menu;
     context_data := None |}.

(** [self.cache.update(self.get_bookmarks(path, firefox_fp))]: the receiver
    [self.cache.update] is evaluated first and needs a dict; then comes the
    call of [get_bookmarks]; then the dict, which [self.cache] still refers
    to, takes the new entries. *)
Definition update_from (w : world) (path : string) (firefox_fp : option string) : M unit :=
  c <- get_cache ;;
  match c with
  | Some d =>
      new <- get_bookmarks w path firefox_fp ;;
      set_cache (Some (new ∪ d))
  | None => raise AttributeError
  end.

(** Lines 92-103: the loop over the configured lines.  [Some r] means the
    handler returned [r] from inside the loop, [None] that the loop ran to
    its end. *)
Fixpoint load_profiles (w : world) (firefox_fp : option string)
    (paths : list string) : M (option (list Option)) :=
  match paths with
  | [] => ret None
  | path :: paths' =>
      r <- try_except
             (update_from w path firefox_fp ;;
              ret None)
             OperationalError
             (set_cache None ;;
              ret (Some [unable_to_open_option path])) ;;
      match r with
      | Some out => ret (Some out)
      | None => load_profiles w firefox_fp paths'
      end
  end.

(** Lines 105-109; an [Option] object is truthy. *)
Definition lookup_result (d : gmap string Option) (query : string) : list Option :=
  match d !! query with
  | Some opt => [opt]
  | None => []
  end.

Definition answer (query : string) : M (list Option) :=
  c <- get_cache ;;
  match c with
  | Some d => ret (lookup_result d query)
  | None => raise AttributeError
  end.

(** Lines 67-109. *)
Definition __call__ (w : world) (query : string) (settings : Settings) : M (list Option) :=
  match profile_path_data settings with
  | None | Some EmptyString => ret [no_profile_option]
  | Some data =>
      c <- get_cache ;;
      match c with
      | None =>
          set_cache (Some ∅) ;;
          r <- load_profiles w (firefox_fp settings) (split_crlf data) ;;
          match r with
          | Some out => ret out
          | None => answer query
          end
      | Some _ => answer query
      end
  end.

(** ** [reload_cache] *)

Inductive ExecuteResponse : Type := mkExecuteResponse (hide : bool).

(** Lines 166-173. *)
Definition reload_cache (w : world) (path : string) (firefox_fp : option string)
    : M ExecuteResponse :=
  new <- get_bookmarks w path firefox_fp ;;
  set_cache (Some new) ;;
  emit (ShowMessage "Firefox Keyword Bookmarks" "Cache successfully reloaded" "Images//app.png") ;;
  ret (mkExecuteResponse false).

(** ** [context_menu] *)

Definition is_lower (c : ascii) : bool :=
  Nat.leb 97 (nat_of_ascii c) && Nat.leb (nat_of_ascii c) 122.
Definition is_upper (c : ascii) : bool :=
  Nat.leb 65 (nat_of_ascii c) && Nat.leb (nat_of_ascii c) 90.
Definition to_upper (c : ascii) : ascii := ascii_of_nat (nat_of_ascii c - 32).
Definition to_lower (c : ascii) : ascii := ascii_of_nat (nat_of_ascii c + 32).

(** [s.title()] on ASCII letters: a letter that follows a letter is
    lowered, any other letter is raised; other characters are kept. *)
Fixpoint title_from (prev_cased : bool) (s : string) : string :=
  match s with
  | EmptyString => EmptyString
  | String c s' =>
      if is_lower c then
        String (if prev_cased then c else to_upper c) (title_from true s')
      else if is_upper c then
        String (if prev_cased then to_lower c else c) (title_from true s')
      else String c (title_from false s')
  end.

Definition py_title (s : string) : string := title_from false s.

Definition ctx_truthy (c : ctx) : bool :=
  match c with
  | CtxValue VNone => false
  | CtxValue (VInt z) => negb (Z.eqb z 0)
  | CtxValue (VStr EmptyString) => false
  | CtxValue (VStr (String _ _)) => true
  | CtxDict [] => false
  | CtxDict (_ :: _) => true
  end.

Definition copy_option (item : string * value) : Option :=
  {| title := "Copy " +:+ py_title item.1;
     sub := Some item.2;
     icon := Some "Images/app.png";
     action := Some (Action_copy_text item.2);
     context_data := None |}.

(** [copy_options.items()] exists on a dict only. *)
Definition copy_options_of (copy_options : ctx) : result (list Option) :=
  if ctx_truthy copy_options then
    match copy_options with
    | CtxDict items => Ok (copy_option <$> items)
    | CtxValue _ => Raise AttributeError
    end
  else Ok [].

Definition is_no_profile_error (data : list ctx) : bool :=
  match data with
  | CtxValue (VStr s) :: _ => String.eqb s "NO_PROFILE_DATA_PATH_ERROR"
  | _ => false
  end.

(** Lines 111-156. *)
Definition context_menu (data : list ctx) : result (list Option) :=
  if is_no_profile_error data then
    Ok [ {| title := "Open Settings Menu"; sub := None; icon := None;
            action := Some Action_api_open_settings_menu; context_data := None |};
         {| title := "Open Guide"; sub := None; icon := None;
            action := Some (Action_api_open_url
              "https://github.com/cibere/Flow.Launcher.Plugin.FirefoxKeywordBookmarks?tab=readme-ov-file#how-to-get-profile-data-path");
            context_data := None |} ]
  else
    match data with
    | [profile_path; firefox_fp; copy_options] =>
        opts <-! copy_options_of copy_options;
        Ok ([ {| title := "Reload Cache"; sub := None; icon := Some "Images/app.png";
                 action := Some (Action_reload_cache profile_path firefox_fp);
                 context_data := None |};
              {| title := "Open log file";
                 sub := Some (VStr "Open FirefoxKeywordBookmarks.log in explorer");
                 icon := Some "Images/app.png";
                 action := Some Action_open_log_file_folder;
                 context_data := None |} ] ++ opts)
    | _ => Raise ValueError
    end.

(** ** [open_url] *)





(** ** Sample stores *)

(** A [moz_places] table without rows. *)
Definition no_such_place : value -> result (option tuple) := fun _ => Ok None.

(** A [moz_places] table with the one row [(id, url)]. *)
Definition one_place (id : Z) (url : string) : value -> result (option tuple) :=
  fun v => if decide (v = VInt id) then Ok (Some [VInt id; VStr url]) else Ok None.

(** No profile directory exists: every [connect] fails to open its file. *)
Definition nowhere : world := fun _ => Raise OperationalError.

Definition store_at (p : string) (con : connection) (w : world) : world :=
  fun p' => if decide (p' = p) then Ok con else w p'.

(** One bookmark: keyword [kw], place 5, at [url]. *)
Definition one_bookmark (kw url : string) : connection :=
  {| moz_keywords := Ok [[VInt 1; VStr kw; VInt 5; VNone]];
     moz_places := one_place 5 url |}.

(** A keyword record whose place is gone. *)
Definition dangling_keyword : connection :=
  {| moz_keywords := Ok [[VInt 1; VStr "go"; VInt 7; VNone]];
     moz_places := no_such_place |}.

(** A [moz_keywords] table with two columns only. *)
Definition two_columns : connection :=
  {| moz_keywords := Ok [[VInt 1; VStr "go"]];
     moz_places := no_such_place |}.

(** A [places.sqlite] that is not a database: the first statement raises
    [sqlite3.DatabaseError]. *)
Definition not_a_database : connection :=
  {| moz_keywords := Raise DatabaseError;
     moz_places := fun _ => Raise DatabaseError |}.

Definition w_two_profiles : world :=
  store_at "/a" (one_bookmark "go" "https://a.example/")
    (store_at "/b" (one_bookmark "mail" "https://b.example/") nowhere).

(** Both profiles define the keyword [go]. *)
Definition w_clash : world :=
  store_at "/a" (one_bookmark "go" "https://a.example/")
    (store_at "/b" (one_bookmark "go" "https://b.example/") nowhere).

(** Profile A defines [mail] without a prefix, profile B under the prefix [w]. *)
Definition w_mail : world :=
  store_at "/a" (one_bookmark "mail" "mail.a.com")
    (store_at "/b" (one_bookmark "mail" "mail.b.com") nowhere).

Definition two_lines : string := "/a" +:+ CRLF +:+ "/b".

Definition configured (data : string) : Settings :=
  {| profile_path_data := Some data; firefox_fp := None |}.

(** ** Vocabulary of the properties *)

(** [row] is a keyword record that resolves: it has a keyword column and a
    place reference, the referenced place exists and has a URL column. *)
Definition contributes (con : connection) (prefix : string) (row : tuple)
    (k : string) (url : value) : Prop :=
  ∃ place_id raw place,
    row !! 2 = Some place_id ∧ row !! 1 = Some raw ∧
    prefix +:+ str raw = k ∧
    moz_places con place_id = Ok (Some place) ∧ place !! 1 = Some url.

(** The store configured by [line] holds a keyword record that resolves
    to [url] and whose full keyword is [k]. *)
Definition defines (w : world) (line k : string) (url : value) : Prop :=
  ∃ pp con rows row,
    split_prefix line = Ok pp ∧ w pp.2 = Ok con ∧
    moz_keywords con = Ok rows ∧ row ∈ rows ∧ contributes con pp.1 row k url.

(** The store configured by [line] holds a keyword record with full
    keyword [k], resolving or not. *)
Definition has_keyword_record (w : world) (line k : string) : Prop :=
  ∃ pp con rows row raw,
    split_prefix line = Ok pp ∧ w pp.2 = Ok con ∧
    moz_keywords con = Ok rows ∧ row ∈ rows ∧
    row !! 1 = Some raw ∧ pp.1 +:+ str raw = k.

(** [get_bookmarks] returns on [line]. *)
Definition readable (w : world) (fp : option string) (line : string) : Prop :=
  ∃ m, read_store w line fp = Ok m.

(** The dict the loop of [__call__] builds from [d] when it runs over
    readable lines. *)
Fixpoint merged (w : world) (fp : option string) (lines : list string)
    (d : gmap string Option) : gmap string Option :=
  match lines with
  | [] => d
  | line :: lines' =>
      match read_store w line fp with
      | Ok m => merged w fp lines' (m ∪ d)
      | Raise _ => d
      end
  end.

(** What [__call__] does once the loop of the lazy load has stopped: the
    lookup, unless the loop returned or raised. *)
Definition finish (q : string) (r : result (option (list Option)) * plugin)
    : result (list Option) * plugin :=
  match r with
  | (Ok None, st') => answer q st'
  | (Ok (Some out), st') => (Ok out, st')
  | (Raise e, st') => (Raise e, st')
  end.

(** [sep.join(lines)] for the separator [CRLF]. *)
Fixpoint join_crlf (lines : list string) : string :=
  match lines with
  | [] => EmptyString
  | l :: ls =>
      match ls with
      | [] => l
      | _ :: _ => l +:+ CRLF +:+ join_crlf ls
      end
  end.

(** [CRLF in s]. *)
Fixpoint contains_crlf (s : string) : bool :=
  match s with
  | EmptyString => false
  | String c rest =>
      match rest with
      | String c' _ => Ascii.eqb c CR && Ascii.eqb c' LF
      | EmptyString => false
      end
      || contains_crlf rest
  end.

(** The entry kept under [k]: titled [k], subtitled with a URL that a store
    of [w] resolves [k] to. *)
Definition entry_ok (w : world) (k : string) (o : Option) : Prop :=
  title o = k ∧ ∃ line url, sub o = Some url ∧ defines w line k url.

Definition cache_ok (w : world) (st : plugin) : Prop :=
  ∀ d k o, cache st = Some d → d !! k = Some o → entry_ok w k o.

Definition reload_option (profile_path firefox_fp : ctx) : Option :=
  {| title := "Reload Cache"; sub := None; icon := Some "Images/app.png";
     action := Some (Action_reload_cache profile_path firefox_fp);
     context_data := None |}.

Definition reloaded_message : event :=
  ShowMessage "Firefox Keyword Bookmarks" "Cache successfully reloaded" "Images//app.png".

(** Every entry of the cache is an option that [get_bookmarks] built for
    its key. *)
Definition cache_built (st : plugin) : Prop :=
  ∀ d k o, cache st = Some d → d !! k = Some o →
    ∃ fp path url, o = bookmark_option fp path k url.

(** The menu of the option that reports a missing profile setting. *)
Definition error_menu : list Option :=
  [ {| title := "Open Settings Menu"; sub := None; icon := None;
       action := Some Action_api_open_settings_menu; context_data := None |};
    {| title := "Open Guide"; sub := None; icon := None;
       action := Some (Action_api_open_url
         "https://github.com/cibere/Flow.Launcher.Plugin.FirefoxKeywordBookmarks?tab=readme-ov-file#how-to-get-profile-data-path");
       context_data := None |} ].

Definition open_log_option : Option :=
  {| title := "Open log file";
     sub := Some (VStr "Open FirefoxKeywordBookmarks.log in explorer");
     icon := Some "Images/app.png";
     action := Some Action_open_log_file_folder;
     context_data := None |}.

(** The menu of a bookmark with keyword [k] and URL [url]. *)
Definition bookmark_menu (fp : option string) (path k : string) (url : value)
    : list Option :=
  [ reload_option (CtxValue (VStr path)) (CtxValue (of_opt_str fp));
    open_log_option;
    {| title := "Copy Keyword"; sub := Some (VStr k); icon := Some "Images/app.png";
       action := Some (Action_copy_text (VStr k)); context_data := None |};
    {| title := "Copy Url"; sub := Some url; icon := Some "Images/app.png";
       action := Some (Action_copy_text url); context_data := None |} ].

(** A store whose [moz_keywords] holds [rows] and whose places are all
    there: the place of id [n] has the URL [urls n]. *)
Definition store_of (rows : list tuple) (urls : Z → string) : connection :=
  {| moz_keywords := Ok rows;
     moz_places := fun v =>
       match v with
       | VInt n => Ok (Some [VInt n; VStr (urls n)])
       | _ => Ok None
       end |}.

(** [m'] has the entries of [m] under keys that begin with the extra
    character [c], each with the URL it has in [m], and no other key. *)
Definition keys_shifted (c : ascii) (m m' : gmap string Option) : Prop :=
  (∀ k, sub <$> (m' !! String c k) = sub <$> (m !! k))
  ∧ (∀ k', is_Some (m' !! k') → ∃ k, k' = String c k).


(** * Properties *)

(** Membership in a list given by its head and tail. *)
Ltac here_or_later := apply elem_of_cons; solve [by left | by right].

(** ** The store reader *)

Section StoreReader.
Variable con : connection.
Variables prefix profile_path : string.
Variable fp : option string.

Implicit Types (final m : gmap string Option) (row : tuple) (k : string).

Lemma index_Ok (t : tuple) i v : index t i = Ok v ↔ t !! i = Some v.
Proof. unfold index. destruct (t !! i); naive_solver. Qed.

Lemma truthy_lookup (t : tuple) i v : t !! i = Some v → truthy t = true.
Proof. by destruct t. Qed.

Lemma add_row_empty final : add_row con prefix profile_path fp final [] = Ok final.
Proof. reflexivity. Qed.

Lemma add_row_missing_place final row place_id :
  row !! 2 = Some place_id →
  moz_places con place_id = Ok None →
  add_row con prefix profile_path fp final row = Ok final.
Proof.
  intros H2 Hplace. unfold add_row.
  rewrite (truthy_lookup _ _ _ H2).
  destruct row as [|c0 [|c1 [|c2 row]]]; simplify_eq/=.
  by rewrite Hplace.
Qed.

Lemma add_row_valid final row k url :
  contributes con prefix row k url →
  add_row con prefix profile_path fp final row
  = Ok (<[k := bookmark_option fp profile_path k url]> final).
Proof.
  intros (place_id & raw & place & H2 & H1 & <- & Hplace & Hurl).
  unfold add_row. rewrite (truthy_lookup _ _ _ H2).
  apply index_Ok in H2, H1. rewrite H2, H1. simpl. rewrite Hplace. simpl.
  rewrite (truthy_lookup _ _ _ Hurl).
  apply index_Ok in Hurl. by rewrite Hurl.
Qed.

(** A row either stores one entry under its full keyword or leaves the
    mapping as it is. *)
Lemma add_row_Ok final row m :
  add_row con prefix profile_path fp final row = Ok m →
  (∃ k url, contributes con prefix row k url ∧
            m = <[k := bookmark_option fp profile_path k url]> final)
  ∨ (m = final ∧ ∀ k url, ¬ contributes con prefix row k url).
Proof.
  unfold add_row. destruct (truthy row) eqn:Hrow.
  - destruct (index row 2) as [place_id|] eqn:H2; [|done].
    destruct (index row 1) as [raw|] eqn:H1; [|done]. simpl.
    apply index_Ok in H2, H1.
    destruct (moz_places con place_id) as [[place|]|] eqn:Hplace; simpl; [| |done].
    + destruct (truthy place) eqn:Hp.
      * destruct (index place 1) as [url|] eqn:Hurl; [|done]. simpl.
        apply index_Ok in Hurl. intros [= <-]. left.
        exists (prefix +:+ str raw), url. split; [|done].
        by exists place_id, raw, place.
      * intros [= <-]. right. split; [done|].
        intros k url (pid' & raw' & place' & ? & ? & ? & ? & Hu).
        simplify_eq. assert (place' = place) as -> by congruence.
        by destruct place.
    + intros [= <-]. right. split; [done|].
      intros k url (pid' & raw' & place' & ? & ? & ? & ? & Hu).
      simplify_eq. congruence.
  - intros [= <-]. right. split; [done|].
    intros k url (pid' & raw' & place' & ? & ? & ?). by destruct row.
Qed.

Lemma add_rows_app final rows1 rows2 :
  add_rows con prefix profile_path fp final (rows1 ++ rows2)
  = (m <-! add_rows con prefix profile_path fp final rows1;
     add_rows con prefix profile_path fp m rows2).
Proof.
  revert final. induction rows1 as [|row rows1 IH]; intros final; simpl; [done|].
  destruct (add_row con prefix profile_path fp final row); simpl; auto.
Qed.

(** Where an entry of the result comes from. *)
Lemma add_rows_lookup_Some rows final m k o :
  add_rows con prefix profile_path fp final rows = Ok m →
  m !! k = Some o →
  final !! k = Some o
  ∨ ∃ row url, row ∈ rows ∧ contributes con prefix row k url ∧
               o = bookmark_option fp profile_path k url.
Proof.
  revert final. induction rows as [|row rows IH]; intros final; simpl.
  - intros [= <-]. auto.
  - destruct (add_row con prefix profile_path fp final row) as [final'|] eqn:Hrow;
      [simpl|done].
    intros Hrest Hk. destruct (IH _ Hrest Hk) as [Hf|(row' & url & ? & ? & ?)].
    + apply add_row_Ok in Hrow as [(k' & url & Hc & ->)|[-> _]]; [|auto].
      destruct (decide (k' = k)) as [->|Hne].
      * rewrite lookup_insert_eq in Hf. simplify_eq.
        right. exists row, url. split_and!; [here_or_later|done..].
      * rewrite lookup_insert_ne in Hf by done. auto.
    + right. exists row', url. split_and!; [here_or_later|done..].
Qed.

(** Which keys the result has. *)
Lemma add_rows_is_Some rows final m k :
  add_rows con prefix profile_path fp final rows = Ok m →
  is_Some (m !! k) ↔
  is_Some (final !! k) ∨ ∃ row url, row ∈ rows ∧ contributes con prefix row k url.
Proof.
  revert final. induction rows as [|row rows IH]; intros final; simpl.
  - intros [= <-]. split; [auto|]. intros [?|(? & ? & []%elem_of_nil & _)]; done.
  - destruct (add_row con prefix profile_path fp final row) as [final'|] eqn:Hrow;
      [simpl|done].
    intros Hrest. rewrite (IH _ Hrest).
    apply add_row_Ok in Hrow as [(k' & url & Hc & ->)|[-> Hno]].
    + destruct (decide (k' = k)) as [->|Hne].
      * rewrite lookup_insert_eq. split; intros _; [|by left].
        right. exists row, url. split_and!; [here_or_later|done..].
      * rewrite lookup_insert_ne by done. split.
        -- intros [?|(row' & url' & ? & ?)]; [auto|].
           right. exists row', url'. split_and!; [here_or_later|done..].
        -- intros [?|(row' & url' & [->|?]%elem_of_cons & Hc')]; [auto| |].
           ++ destruct Hc as (?&?&?&?&?&?&?&?), Hc' as (?&?&?&?&?&?&?&?).
              simplify_eq.
           ++ right. exists row', url'. auto.
    + split.
      * intros [?|(row' & url' & ? & ?)]; [auto|].
        right. exists row', url'. split_and!; [here_or_later|done..].
      * intros [?|(row' & url' & [->|?]%elem_of_cons & Hc')]; [auto| |].
        -- by destruct (Hno _ _ Hc').
        -- right. exists row', url'. auto.
Qed.

(** Within one store the later record wins. *)
Lemma add_rows_last rows1 row rows2 final m k url :
  add_rows con prefix profile_path fp final (rows1 ++ row :: rows2) = Ok m →
  contributes con prefix row k url →
  (∀ row' url', row' ∈ rows2 → ¬ contributes con prefix row' k url') →
  m !! k = Some (bookmark_option fp profile_path k url).
Proof.
  rewrite add_rows_app.
  destruct (add_rows con prefix profile_path fp final rows1) as [m1|]; [simpl|done].
  intros Hrest Hc Hno. rewrite (add_row_valid _ _ _ _ Hc) in Hrest. simpl in Hrest.
  destruct (m !! k) as [o|] eqn:Hk.
  - destruct (add_rows_lookup_Some _ _ _ _ _ Hrest Hk)
      as [Hf|(row' & url' & Hin & Hc' & ->)].
    + by rewrite lookup_insert_eq in Hf.
    + by destruct (Hno _ _ Hin Hc').
  - assert (is_Some (m !! k)) as [? ?]; [|congruence].
    apply (add_rows_is_Some _ _ _ _ Hrest). left. by rewrite lookup_insert_eq.
Qed.
End StoreReader.

(** ** Reading one configured line *)

Section Cache.
Variable w : world.
Variable fp : option string.

Implicit Types (d m : gmap string Option) (k line : string) (st : plugin).

Lemma read_store_Ok line m :
  read_store w line fp = Ok m ↔
  ∃ pp con rows,
    split_prefix line = Ok pp ∧ w pp.2 = Ok con ∧ moz_keywords con = Ok rows ∧
    add_rows con pp.1 pp.2 fp ∅ rows = Ok m.
Proof.
  unfold read_store. split.
  - destruct (split_prefix line) as [pp|]; [simpl|done].
    destruct (w pp.2) as [con|] eqn:Hw; [simpl|done].
    destruct (moz_keywords con) as [rows|] eqn:Hrows; [simpl|done].
    intros ?. by exists pp, con, rows.
  - intros (pp & con & rows & -> & Hw & Hrows & ?). simpl.
    rewrite Hw. simpl. by rewrite Hrows.
Qed.

Lemma read_store_is_Some line m k :
  read_store w line fp = Ok m →
  is_Some (m !! k) ↔ ∃ url, defines w line k url.
Proof.
  intros (pp & con & rows & Hpp & Hw & Hrows & Hadd)%read_store_Ok.
  rewrite (add_rows_is_Some _ _ _ _ _ _ _ k Hadd). split.
  - intros [[? Hk]|(row & url & ? & ?)]; [by rewrite lookup_empty in Hk|].
    exists url, pp, con, rows, row. auto.
  - intros (url & pp' & con' & rows' & row & ? & ? & ? & ? & ?).
    right. exists row, url.
    assert (pp' = pp) as -> by congruence.
    assert (con' = con) as -> by congruence.
    assert (rows' = rows) as -> by congruence. auto.
Qed.

Lemma read_store_lookup_Some line m k o :
  read_store w line fp = Ok m →
  m !! k = Some o →
  ∃ pp url, split_prefix line = Ok pp ∧ defines w line k url ∧
            o = bookmark_option fp pp.2 k url.
Proof.
  intros (pp & con & rows & Hpp & Hw & Hrows & Hadd)%read_store_Ok Hk.
  destruct (add_rows_lookup_Some _ _ _ _ _ _ _ _ _ Hadd Hk)
    as [He|(row & url & ? & ? & ->)]; [by rewrite lookup_empty in He|].
  exists pp, url. split_and!; [done| |done].
  exists pp, con, rows, row. auto.
Qed.

(** ** The monad, one step at a time *)

Lemma get_bookmarks_run line st :
  get_bookmarks w line fp st
  = (read_store w line fp,
     {| cache := cache st; trace := trace st ++ [GetBookmarks line] |}).
Proof. reflexivity. Qed.

(** One turn of the loop of [__call__]. *)
Lemma load_profiles_cons line lines st :
  load_profiles w fp (line :: lines) st =
  let tr := trace st ++ [GetBookmarks line] in
  match cache st with
  | Some d =>
      match read_store w line fp with
      | Ok m => load_profiles w fp lines {| cache := Some (m ∪ d); trace := tr |}
      | Raise e =>
          if decide (e = OperationalError)
          then (Ok (Some [unable_to_open_option line]), {| cache := None; trace := tr |})
          else (Raise e, {| cache := Some d; trace := tr |})
      end
  | None => (Raise AttributeError, st)
  end.
Proof.
  cbn [load_profiles]. unfold bind at 1. unfold try_except.
  unfold bind at 1. unfold update_from. unfold bind at 1. unfold get_cache at 1.
  cbv beta iota. destruct (cache st) as [d|] eqn:Hd; [|done].
  unfold bind at 1. rewrite get_bookmarks_run.
  destruct (read_store w line fp) as [m|e]; [done|].
  destruct (decide (e = OperationalError)); [done|]. by rewrite Hd.
Qed.

Lemma merged_app lines1 lines2 d :
  Forall (readable w fp) lines1 →
  merged w fp (lines1 ++ lines2) d = merged w fp lines2 (merged w fp lines1 d).
Proof.
  intros Hall. revert d.
  induction Hall as [|line lines1 [m Hm] _ IH]; intros d; simpl; [done|].
  by rewrite Hm.
Qed.

Lemma merged_lookup_other lines d k :
  (∀ line m, line ∈ lines → read_store w line fp = Ok m → m !! k = None) →
  merged w fp lines d !! k = d !! k.
Proof.
  revert d. induction lines as [|line lines IH]; intros d Hno; simpl; [done|].
  destruct (read_store w line fp) as [m|] eqn:Hm; [|done].
  rewrite IH by (intros line' m' ? ?; apply (Hno line' m'); [here_or_later|done]).
  rewrite lookup_union_r; [done|].
  apply (Hno line m); [here_or_later|done].
Qed.

(** The later line wins. *)
Lemma merged_lookup_last lines1 line lines2 d m k o :
  Forall (readable w fp) lines1 →
  read_store w line fp = Ok m →
  m !! k = Some o →
  (∀ line' m', line' ∈ lines2 → read_store w line' fp = Ok m' → m' !! k = None) →
  merged w fp (lines1 ++ line :: lines2) d !! k = Some o.
Proof.
  intros Hall Hm Hk Hno. rewrite merged_app by done. simpl. rewrite Hm.
  rewrite merged_lookup_other by done.
  by apply lookup_union_Some_l.
Qed.

Lemma merged_lookup_Some lines d k o :
  merged w fp lines d !! k = Some o →
  d !! k = Some o ∨ ∃ line m, line ∈ lines ∧ read_store w line fp = Ok m ∧ m !! k = Some o.
Proof.
  revert d. induction lines as [|line lines IH]; intros d; simpl; [auto|].
  destruct (read_store w line fp) as [m|] eqn:Hm; [|auto].
  intros [Hu|(line' & m' & ? & ? & ?)]%IH.
  - apply lookup_union_Some_raw in Hu as [?|[_ ?]]; [|auto].
    right. exists line, m. split_and!; [here_or_later|done..].
  - right. exists line', m'. split_and!; [here_or_later|done..].
Qed.

Lemma merged_is_Some lines d k :
  Forall (readable w fp) lines →
  is_Some (merged w fp lines d !! k) ↔
  is_Some (d !! k) ∨ ∃ line url, line ∈ lines ∧ defines w line k url.
Proof.
  intros Hall. revert d.
  induction Hall as [|line lines [m Hm] _ IH]; intros d; simpl.
  - split; [auto|]. intros [?|(? & ? & []%elem_of_nil & _)]; done.
  - rewrite Hm, IH, lookup_union_is_Some, (read_store_is_Some _ _ _ Hm). split.
    + intros [[(url & ?)|?]|(line' & url & ? & ?)]; [|auto|].
      * right. exists line, url. split; [here_or_later|done].
      * right. exists line', url. split; [here_or_later|done].
    + intros [?|(line' & url & [->|?]%elem_of_cons & ?)]; [auto| |].
      * left. left. by exists url.
      * right. by exists line', url.
Qed.

(** ** The loop of the lazy load *)

Lemma load_profiles_readable lines st d :
  cache st = Some d →
  Forall (readable w fp) lines →
  load_profiles w fp lines st
  = (Ok None, {| cache := Some (merged w fp lines d);
                 trace := trace st ++ (GetBookmarks <$> lines) |}).
Proof.
  intros Hd Hall. revert st d Hd.
  induction Hall as [|line lines [m Hm] _ IH]; intros st d Hd.
  - simpl. rewrite app_nil_r. unfold ret. destruct st; simpl in *. by subst.
  - rewrite load_profiles_cons, Hm, Hd. cbn zeta.
    rewrite (IH _ (m ∪ d)) by done. simpl. by rewrite Hm, <- app_assoc.
Qed.

(** The first store that cannot be read stops the loop: a caught
    [OperationalError] empties the cache and returns the error option;
    any other exception leaves the handler with the dict built so far
    still in place. *)
Lemma load_profiles_fails lines1 bad lines2 st d e :
  cache st = Some d →
  Forall (readable w fp) lines1 →
  read_store w bad fp = Raise e →
  load_profiles w fp (lines1 ++ bad :: lines2) st
  = let tr := trace st ++ (GetBookmarks <$> lines1 ++ [bad]) in
    if decide (e = OperationalError)
    then (Ok (Some [unable_to_open_option bad]), {| cache := None; trace := tr |})
    else (Raise e, {| cache := Some (merged w fp lines1 d); trace := tr |}).
Proof.
  intros Hd Hall Hbad. revert st d Hd.
  induction Hall as [|line lines1 [m Hm] _ IH]; intros st d Hd.
  - simpl app. rewrite load_profiles_cons, Hbad. cbn zeta. simpl. by rewrite Hd.
  - rewrite <- app_comm_cons, load_profiles_cons, Hm, Hd. cbn zeta.
    rewrite (IH _ (m ∪ d)) by done. simpl. by rewrite Hm, <- !app_assoc.
Qed.
End Cache.

(** ** The query handler *)

Section Handler.
Variable w : world.

Implicit Types (d m : gmap string Option) (q data : string) (st : plugin)
  (settings : Settings).

Lemma call_unconfigured q settings st :
  profile_path_data settings = None ∨ profile_path_data settings = Some EmptyString →
  __call__ w q settings st = (Ok [no_profile_option], st).
Proof. unfold __call__. by intros [-> | ->]. Qed.

Lemma call_loaded q settings data st d :
  profile_path_data settings = Some data → data ≠ EmptyString →
  cache st = Some d →
  __call__ w q settings st = (Ok (lookup_result d q), st).
Proof.
  intros Hs Hdata Hd. unfold __call__. rewrite Hs.
  destruct data; [done|].
  unfold bind at 1. unfold get_cache at 1. cbv beta iota. rewrite Hd.
  unfold answer, bind, get_cache, ret. cbv beta iota. by rewrite Hd.
Qed.

Lemma call_unloaded q settings data st :
  profile_path_data settings = Some data → data ≠ EmptyString →
  cache st = None →
  __call__ w q settings st
  = finish q (load_profiles w (firefox_fp settings) (split_crlf data)
                {| cache := Some ∅; trace := trace st |}).
Proof.
  intros Hs Hdata Hd. unfold __call__. rewrite Hs.
  destruct data; [done|].
  unfold bind at 1. unfold get_cache at 1. cbv beta iota. rewrite Hd.
  unfold bind at 1. unfold set_cache at 1. cbv beta iota.
  unfold bind at 1. unfold finish. cbn [cache trace].
  destruct (load_profiles _ _ _ _) as [[[out|]|e] st']; reflexivity.
Qed.

Lemma answer_state q st : (answer q st).2 = st.
Proof. unfold answer, bind, get_cache, ret, raise. by destruct (cache st). Qed.

Lemma finish_state q r : (finish q r).2 = r.2.
Proof. destruct r as [[[out|]|e] st']; simpl; [done| |done]. apply answer_state. Qed.

Lemma split_crlf_nonempty data : split_crlf data ≠ [].
Proof.
  induction data as [|c rest IH]; [done|]. cbn [split_crlf].
  destruct rest as [|c' rest'].
  - by destruct (split_crlf EmptyString).
  - destruct (Ascii.eqb c CR && Ascii.eqb c' LF); [done|].
    by destruct (split_crlf (String c' rest')).
Qed.

(** The loop calls [get_bookmarks] on an initial stretch of the lines, once
    each and in order, and on the first line whenever there is one. *)
Lemma load_profiles_trace (fp : option string) (lines : list string) st :
  is_Some (cache st) →
  ∃ n : nat, (n ≤ length lines)%nat ∧ (lines ≠ [] → (1 ≤ n)%nat) ∧
       trace (load_profiles w fp lines st).2
       = trace st ++ (GetBookmarks <$> take n lines).
Proof.
  revert st. induction lines as [|line lines IH]; intros st [d Hd].
  - exists 0%nat. simpl. rewrite app_nil_r. split_and!; [lia|done..].
  - rewrite load_profiles_cons, Hd. cbn zeta.
    destruct (read_store w line fp) as [m|e].
    + destruct (IH {| cache := Some (m ∪ d); trace := trace st ++ [GetBookmarks line] |})
        as (n & Hn & _ & ->); [by eexists|].
      exists (S n). simpl. rewrite <- app_assoc. split_and!; [lia|lia|done].
    + exists 1%nat.
      destruct (decide (e = OperationalError)); simpl;
        (split_and!; [lia|done|by destruct lines]).
Qed.

Lemma call_unloaded_trace q settings data st :
  profile_path_data settings = Some data → data ≠ EmptyString →
  cache st = None →
  ∃ n : nat, (1 ≤ n ≤ length (split_crlf data))%nat ∧
       trace (__call__ w q settings st).2
       = trace st ++ (GetBookmarks <$> take n (split_crlf data)).
Proof.
  intros Hs Hdata Hd. rewrite (call_unloaded _ _ _ _ Hs Hdata Hd), finish_state.
  destruct (load_profiles_trace (firefox_fp settings) (split_crlf data)
              {| cache := Some ∅; trace := trace st |}) as (n & Hn & Hpos & ->);
    [by eexists|].
  exists n. split; [|done]. split; [|done]. apply Hpos, split_crlf_nonempty.
Qed.

Lemma call_unloaded_readable q settings data st :
  profile_path_data settings = Some data →
  cache st = None →
  Forall (readable w (firefox_fp settings)) (split_crlf data) →
  __call__ w q settings st
  = let d := merged w (firefox_fp settings) (split_crlf data) ∅ in
    (Ok (lookup_result d q),
     {| cache := Some d; trace := trace st ++ (GetBookmarks <$> split_crlf data) |}).
Proof.
  intros Hs Hd Hall.
  assert (data ≠ EmptyString) as Hdata.
  { intros ->. by inversion Hall as [|?? [m Hm]]. }
  rewrite (call_unloaded _ _ _ _ Hs Hdata Hd).
  by rewrite (load_profiles_readable w _ _ {| cache := Some ∅; trace := trace st |}
                ∅ eq_refl Hall).
Qed.
End Handler.

(** * The claims *)

(** ** No profile configured *)

(** C7. When the profile setting is absent or the empty string, the handler
    returns the single "No profile data path given" option instead of
    raising, reads no store, and leaves the plugin as it was: a cache that
    was unloaded is unloaded afterwards. *)
Theorem C7_no_profile_configured (w : world) (q : string) (fp : option string)
    (st : plugin) :
  __call__ w q {| profile_path_data := None; firefox_fp := fp |} st
  = (Ok [no_profile_option], st)
  ∧ __call__ w q {| profile_path_data := Some EmptyString; firefox_fp := fp |} st
    = (Ok [no_profile_option], st)
  ∧ is_loaded (__call__ w q {| profile_path_data := None; firefox_fp := fp |} init).2
    = false
  ∧ is_loaded
      (__call__ w q {| profile_path_data := Some EmptyString; firefox_fp := fp |} init).2
    = false.
Proof. split_and!; reflexivity. Qed.

(** ** Lazy loading *)

(** With profiles configured, a lookup on the unloaded cache makes one
    pass over the configured lines: [get_bookmarks] is called on the first
    line, then on the following ones in order, never twice and not past the
    line that stops the loop; when every line is readable the pass covers
    them all and the cache is loaded afterwards, with whatever mapping the
    stores gave.  On a loaded cache, the empty dict included, a lookup calls
    [get_bookmarks] not at all and leaves the plugin exactly as it was. *)
Theorem lazy_load_once (w : world) (q data : string) (settings : Settings) (st : plugin) :
  profile_path_data settings = Some data →
  data ≠ EmptyString →
  (cache st = None →
     (∃ n : nat, (1 ≤ n ≤ length (split_crlf data))%nat ∧
        trace (__call__ w q settings st).2
        = trace st ++ (GetBookmarks <$> take n (split_crlf data)))
     ∧ (Forall (readable w (firefox_fp settings)) (split_crlf data) →
        trace (__call__ w q settings st).2
        = trace st ++ (GetBookmarks <$> split_crlf data)
        ∧ is_loaded (__call__ w q settings st).2 = true))
  ∧ (∀ d, cache st = Some d →
       __call__ w q settings st = (Ok (lookup_result d q), st))
  ∧ is_loaded {| cache := Some ∅; trace := trace st |} = true
  ∧ is_loaded init = false.
Proof.
  intros Hs Hdata.
  split_and!; [|by intros d; apply (call_loaded w q settings data)|done..].
  intros Hd. split; [by apply call_unloaded_trace|].
  intros Hall. by rewrite (call_unloaded_readable w q settings data st Hs Hd Hall).
Qed.

(** A profile whose store has no keyword at all loads to the empty dict,
    and the next lookup reads nothing. *)
Lemma lazy_load_once_witness :
  let w := store_at "/a" {| moz_keywords := Ok []; moz_places := no_such_place |} nowhere in
  let st1 := (__call__ w "go" (configured "/a") init).2 in
  cache st1 = Some ∅
  ∧ trace st1 = [GetBookmarks "/a"]
  ∧ __call__ w "go" (configured "/a") st1 = (Ok [], st1).
Proof.
  intros w st1.
  destruct (lazy_load_once w "go" "/a" (configured "/a") init eq_refl ltac:(done))
    as (Hunloaded & _).
  destruct (Hunloaded eq_refl) as (_ & Hpass).
  destruct Hpass as [Htrace _].
  { repeat constructor. by eexists. }
  destruct (lazy_load_once w "go" "/a" (configured "/a") st1 eq_refl ltac:(done))
    as (_ & Hloaded & _).
  split_and!; [reflexivity|exact Htrace|exact (Hloaded ∅ eq_refl)].
Defined.

(** C8. With the profile setting [/a] followed by a line break, the first
    lookup calls [get_bookmarks] on [/a], then on the empty last line, where
    [profile_path[1]] raises [IndexError]; only [OperationalError] is
    caught, so the call raises and the dict filled so far stays in
    [self.cache].  No load has succeeded, and yet every later lookup finds
    the cache loaded: it calls [get_bookmarks] not at all, where the claim
    asks for one load attempt. *)
Theorem C8_lookup_after_escaped_failure_loads_nothing :
  let w := store_at "/a" (one_bookmark "go" "https://a.example/") nowhere in
  let settings := configured ("/a" +:+ CRLF) in
  let st1 := {| cache := Some {[ "go" := bookmark_option None "/a" "go"
                                           (VStr "https://a.example/") ]};
                trace := [GetBookmarks "/a"; GetBookmarks EmptyString] |} in
  is_loaded init = false
  ∧ __call__ w "mail" settings init = (Raise IndexError, st1)
  ∧ is_loaded st1 = true
  ∧ __call__ w "mail" settings st1 = (Ok [], st1)
  ∧ __call__ w "go" settings st1
    = (Ok [bookmark_option None "/a" "go" (VStr "https://a.example/")], st1).
Proof. split_and!; reflexivity. Qed.

(** ** The prefix convention *)

Lemma split_prefix_sep (c : ascii) (rest : string) :
  split_prefix (String c (String "|"%char rest)) = Ok (String c EmptyString, rest).
Proof. reflexivity. Qed.

Lemma split_prefix_no_sep (c0 c1 : ascii) (rest : string) :
  c1 ≠ "|"%char →
  split_prefix (String c0 (String c1 rest)) = Ok (EmptyString, String c0 (String c1 rest)).
Proof.
  intros Hne. unfold split_prefix.
  destruct (Ascii.eqb_spec c1 "|"%char); [done|reflexivity].
Qed.

Lemma split_prefix_short (s : string) :
  (String.length s < 2)%nat → split_prefix s = Raise IndexError.
Proof. destruct s as [|c0 [|c1 rest]]; simpl; [done|done|lia]. Qed.

(** The full keyword of a store keyword under a prefixed and under an
    unprefixed line. *)
Lemma prefix_examples :
  let w := store_at "/path/to/profile" (one_bookmark "go" "https://example.org/") nowhere in
  read_store w "A|/path/to/profile" None
  = Ok {[ "Ago" := bookmark_option None "/path/to/profile" "Ago"
                     (VStr "https://example.org/") ]}
  ∧ read_store w "/path/to/profile" None
    = Ok {[ "go" := bookmark_option None "/path/to/profile" "go"
                      (VStr "https://example.org/") ]}.
Proof. split; reflexivity. Qed.

(** C5. On a configured string of two characters or more the prefix is
    derived as the claim says; on a shorter one, such as the empty line that
    a trailing line break leaves or the directory [.], the test
    [profile_path[1] == "|"] raises [IndexError]: no path is derived,
    [get_bookmarks] raises whatever the stores hold, and the exception
    leaves [__call__]. *)
Theorem C5_short_profile_string_raises (w : world) (fp : option string) (q : string) :
  split_prefix "A|/path/to/profile" = Ok ("A", "/path/to/profile")
  ∧ split_prefix "/path/to/profile" = Ok (EmptyString, "/path/to/profile")
  ∧ split_prefix EmptyString = Raise IndexError
  ∧ split_prefix "." = Raise IndexError
  ∧ read_store w "." fp = Raise IndexError
  ∧ __call__ w q {| profile_path_data := Some "."; firefox_fp := fp |} init
    = (Raise IndexError, {| cache := Some ∅; trace := [GetBookmarks "."] |}).
Proof. split_and!; reflexivity. Qed.

(** ** Stores that cannot be read *)

(** C6. A store whose [moz_keywords] rows lack the place column makes
    [keyword_data[2]] raise [IndexError], and a file that is not a database
    makes the first statement raise [DatabaseError]; neither is an
    [OperationalError], so the exception leaves [__call__] instead of
    becoming a result option, and the dict that was being filled stays in
    [self.cache]: the next query is answered from it without a new load. *)
Theorem C6_unreadable_store_escapes :
  let good := one_bookmark "go" "https://a.example/" in
  let w1 := store_at "/a" good (store_at "/b" two_columns nowhere) in
  let w2 := store_at "/a" good (store_at "/b" not_a_database nowhere) in
  let partial := {| cache := Some {[ "go" := bookmark_option None "/a" "go"
                                               (VStr "https://a.example/") ]};
                    trace := [GetBookmarks "/a"; GetBookmarks "/b"] |} in
  __call__ w1 "mail" (configured two_lines) init = (Raise IndexError, partial)
  ∧ __call__ w2 "mail" (configured two_lines) init = (Raise DatabaseError, partial)
  ∧ __call__ w1 "mail" (configured two_lines) partial = (Ok [], partial).
Proof. split_and!; reflexivity. Qed.

(** ** Failed loads *)

Lemma reload_cache_run (w : world) (path : string) (fp : option string) (st : plugin) :
  reload_cache w path fp st =
  match read_store w path fp with
  | Ok m => (Ok (mkExecuteResponse false),
             {| cache := Some m;
                trace := trace st ++ [GetBookmarks path; reloaded_message] |})
  | Raise e => (Raise e, {| cache := cache st; trace := trace st ++ [GetBookmarks path] |})
  end.
Proof.
  unfold reload_cache. unfold bind at 1. rewrite get_bookmarks_run.
  destruct (read_store w path fp) as [m|e]; [|done].
  unfold bind, set_cache, emit, ret; simpl. by rewrite <- app_assoc.
Qed.




(** ** Reload *)

(** With two profiles configured and loaded, a reload offered by the
    bookmark of the first profile reads that profile only, and the keyword
    of the second profile is gone afterwards. *)
Lemma reload_reads_one_profile :
  let settings := configured two_lines in
  let st1 := (__call__ w_two_profiles "mail" settings init).2 in
  let st2 := (reload_cache w_two_profiles "/a" None st1).2 in
  (__call__ w_two_profiles "mail" settings init).1
  = Ok [bookmark_option None "/b" "mail" (VStr "https://b.example/")]
  ∧ (reload_cache w_two_profiles "/a" None st1).1 = Ok (mkExecuteResponse false)
  ∧ trace st2 = trace st1 ++ [GetBookmarks "/a"; reloaded_message]
  ∧ __call__ w_two_profiles "mail" settings st2 = (Ok [], st2).
Proof. split_and!; reflexivity. Qed.

Lemma context_menu_bookmark (fp : option string) (path k : string) (url : value) :
  path ≠ "NO_PROFILE_DATA_PATH_ERROR" →
  ∃ data rest,
    context_data (bookmark_option fp path k url) = Some data
    ∧ context_menu data
      = Ok (reload_option (CtxValue (VStr path)) (CtxValue (of_opt_str fp)) :: rest).
Proof.
  intros Hne. eexists _, _. split; [reflexivity|].
  unfold context_menu, is_no_profile_error.
  destruct (String.eqb_spec path "NO_PROFILE_DATA_PATH_ERROR"); [done|].
  reflexivity.
Qed.

(** [reload_cache] is given one profile path, the one in the
    context data of the bookmark whose menu offered it; it calls
    [get_bookmarks] on that path whatever the cache holds, loaded or not,
    and when that returns, the cache is the returned mapping and nothing
    else: no entry of the previous dict survives unless the store gave it
    again. *)
Theorem reload_cache_replaces (w : world) (path : string) (fp : option string)
    (st : plugin) (m : gmap string Option) :
  read_store w path fp = Ok m →
  path ≠ "NO_PROFILE_DATA_PATH_ERROR" →
  reload_cache w path fp st
  = (Ok (mkExecuteResponse false),
     {| cache := Some m; trace := trace st ++ [GetBookmarks path; reloaded_message] |})
  ∧ (∀ w' k settings data,
       profile_path_data settings = Some data → data ≠ EmptyString →
       (__call__ w' k settings (reload_cache w path fp st).2).1 = Ok (lookup_result m k))
  ∧ (∀ k url, ∃ data rest,
       context_data (bookmark_option fp path k url) = Some data
       ∧ context_menu data
         = Ok (reload_option (CtxValue (VStr path)) (CtxValue (of_opt_str fp)) :: rest)).
Proof.
  intros Hm Hne. rewrite reload_cache_run, Hm. split_and!; [done| |].
  - intros w' k settings data Hs Hdata.
    by erewrite (call_loaded w' k settings data _ m Hs Hdata).
  - intros k url. by apply context_menu_bookmark.
Qed.

Lemma reload_cache_replaces_witness :
  let st1 := (__call__ w_two_profiles "mail" (configured two_lines) init).2 in
  reload_cache w_two_profiles "/a" None st1
  = (Ok (mkExecuteResponse false),
     {| cache := Some {[ "go" := bookmark_option None "/a" "go" (VStr "https://a.example/") ]};
        trace := trace st1 ++ [GetBookmarks "/a"; reloaded_message] |}).
Proof.
  intros st1.
  exact (proj1 (reload_cache_replaces w_two_profiles "/a" None st1 _ eq_refl ltac:(done))).
Defined.

(** C3. With the lines [w|/a] and [/b] configured, the lazy load serves
    [wgo] from the first profile and [mail] from the second.  The menu of
    [wgo] offers the reload with the path [/a], without its prefix, and
    [reload_cache] reads that one store and makes its mapping the cache:
    the configured sequence is not rebuilt.  Afterwards [wgo] and [mail]
    are answered with nothing and the bookmark is found under [go]; the
    stores are not read again by later lookups. *)
Theorem C3_reload_loses_configured_profiles :
  let settings := configured ("w|/a" +:+ CRLF +:+ "/b") in
  let go := bookmark_option None "/a" "wgo" (VStr "https://a.example/") in
  let st1 := (__call__ w_two_profiles "wgo" settings init).2 in
  let st2 := (reload_cache w_two_profiles "/a" None st1).2 in
  __call__ w_two_profiles "wgo" settings init
  = (Ok [go],
     {| cache := Some (<["mail" := bookmark_option None "/b" "mail"
                                     (VStr "https://b.example/")]> {[ "wgo" := go ]});
        trace := [GetBookmarks "w|/a"; GetBookmarks "/b"] |})
  ∧ (∃ rest, context_data go = Some [CtxValue (VStr "/a"); CtxValue VNone;
                                     CtxDict [("keyword", VStr "wgo");
                                              ("url", VStr "https://a.example/")]]
             ∧ context_menu [CtxValue (VStr "/a"); CtxValue VNone;
                             CtxDict [("keyword", VStr "wgo");
                                      ("url", VStr "https://a.example/")]]
               = Ok (reload_option (CtxValue (VStr "/a")) (CtxValue VNone) :: rest))
  ∧ reload_cache w_two_profiles "/a" None st1
    = (Ok (mkExecuteResponse false),
       {| cache := Some {[ "go" := bookmark_option None "/a" "go"
                                     (VStr "https://a.example/") ]};
          trace := [GetBookmarks "w|/a"; GetBookmarks "/b"; GetBookmarks "/a";
                    reloaded_message] |})
  ∧ __call__ w_two_profiles "wgo" settings st2 = (Ok [], st2)
  ∧ __call__ w_two_profiles "mail" settings st2 = (Ok [], st2)
  ∧ __call__ w_two_profiles "go" settings st2
    = (Ok [bookmark_option None "/a" "go" (VStr "https://a.example/")], st2).
Proof. split_and!; try reflexivity. by eexists. Qed.

(** ** Rows that are skipped and rows that are kept *)

(** The claim as stated fails: a keyword record whose keyword value is the
    empty string, its place being there, is not skipped; it is stored under
    the prefix alone. *)
Lemma C4_empty_keyword_is_stored :
  let con := one_bookmark EmptyString "https://example.org/" in
  let url := VStr "https://example.org/" in
  add_row con EmptyString "/p" None ∅ [VInt 1; VStr EmptyString; VInt 5; VNone]
  = Ok {[ EmptyString := bookmark_option None "/p" EmptyString url ]}
  ∧ read_store (store_at "/p" con nowhere) "A|/p" None
    = Ok {[ "A" := bookmark_option None "/p" "A" url ]}.
Proof. split; reflexivity. Qed.

(** C4, amended. A keyword record whose place is missing is skipped without
    an error and the mapping stays as it was; so does an empty row.  A
    record whose place is found stores exactly one entry, under its full
    keyword, whatever the keyword value is, the empty string included; the
    entry replaces an earlier one with that full keyword.  The keys of the
    returned mapping are the full keywords of the records whose place was
    found. *)
Theorem C4_rows_skipped_and_kept (con : connection) (prefix profile_path : string)
    (fp : option string) (final : gmap string Option) (row : tuple) :
  add_row con prefix profile_path fp final [] = Ok final
  ∧ (∀ place_id, row !! 2 = Some place_id → moz_places con place_id = Ok None →
       add_row con prefix profile_path fp final row = Ok final)
  ∧ (∀ k url, contributes con prefix row k url →
       add_row con prefix profile_path fp final row
       = Ok (<[k := bookmark_option fp profile_path k url]> final))
  ∧ (∀ rows m k, add_rows con prefix profile_path fp ∅ rows = Ok m →
       is_Some (m !! k) ↔ ∃ row' url, row' ∈ rows ∧ contributes con prefix row' k url).
Proof.
  split_and!.
  - apply add_row_empty.
  - intros place_id. apply add_row_missing_place.
  - intros k url. apply add_row_valid.
  - intros rows m k Hm. rewrite (add_rows_is_Some _ _ _ _ _ _ _ k Hm).
    split; [|by right]. intros [[o Ho]|?]; [|done]. by rewrite lookup_empty in Ho.
Qed.

Lemma C4_rows_witness :
  add_row dangling_keyword EmptyString "/p" None ∅ [VInt 1; VStr "go"; VInt 7; VNone]
  = Ok ∅
  ∧ add_row (one_bookmark "go" "https://a.example/") "A" "/p" None ∅
      [VInt 1; VStr "go"; VInt 5; VNone]
    = Ok (<["Ago" := bookmark_option None "/p" "Ago" (VStr "https://a.example/")]> ∅).
Proof.
  split.
  - destruct (C4_rows_skipped_and_kept dangling_keyword EmptyString "/p" None ∅
                [VInt 1; VStr "go"; VInt 7; VNone]) as (_ & Hskip & _).
    exact (Hskip (VInt 7) eq_refl eq_refl).
  - destruct (C4_rows_skipped_and_kept (one_bookmark "go" "https://a.example/") "A" "/p"
                None ∅ [VInt 1; VStr "go"; VInt 5; VNone]) as (_ & _ & Hkeep & _).
    apply Hkeep. by exists (VInt 5), (VStr "go"), [VInt 5; VStr "https://a.example/"].
Defined.

(** ** Lookup after a load *)

Lemma lookup_result_singleton (d : gmap string Option) (q : string) (o : Option) :
  lookup_result d q = [o] ↔ d !! q = Some o.
Proof. unfold lookup_result. destruct (d !! q); naive_solver. Qed.

(** The claim as stated fails: the store holds a keyword record with full
    keyword [go], the load succeeds, and the lookup of [go] returns nothing,
    because the place the record refers to is missing. *)
Lemma C2_dangling_keyword_not_served :
  let w := store_at "/p" dangling_keyword nowhere in
  readable w None "/p"
  ∧ has_keyword_record w "/p" "go"
  ∧ __call__ w "go" (configured "/p") init
    = (Ok [], {| cache := Some ∅; trace := [GetBookmarks "/p"] |}).
Proof.
  split_and!; [by eexists| |reflexivity].
  exists (EmptyString, "/p"), dangling_keyword,
    [[VInt 1; VStr "go"; VInt 7; VNone]], [VInt 1; VStr "go"; VInt 7; VNone], (VStr "go").
  split_and!; try reflexivity. apply elem_of_cons. by left.
Qed.

(** C2, amended. When every configured line is readable, the lookup that
    follows the load returns an entry for [q] exactly when the store of
    some line holds a keyword record with full keyword [q] whose place is
    found; and the entry returned is the one of the last such line. *)
Theorem C2_lookup_after_load (w : world) (q data : string) (settings : Settings)
    (st : plugin) :
  profile_path_data settings = Some data →
  cache st = None →
  Forall (readable w (firefox_fp settings)) (split_crlf data) →
  ((∃ o, (__call__ w q settings st).1 = Ok [o]) ↔
   ∃ line url, line ∈ split_crlf data ∧ defines w line q url)
  ∧ (∀ lines1 line lines2 m o,
       split_crlf data = lines1 ++ line :: lines2 →
       read_store w line (firefox_fp settings) = Ok m → m !! q = Some o →
       (∀ line' url', line' ∈ lines2 → ¬ defines w line' q url') →
       (__call__ w q settings st).1 = Ok [o]).
Proof.
  intros Hs Hd Hall. rewrite (call_unloaded_readable w q settings data st Hs Hd Hall).
  cbn zeta. cbn [fst]. split.
  - pose proof (merged_is_Some w _ _ ∅ q Hall) as Hkeys. split.
    + intros [o [= Ho%lookup_result_singleton]].
      destruct (proj1 Hkeys) as [[o' Ho']|?]; [by exists o| |done].
      by rewrite lookup_empty in Ho'.
    + intros Hdef. destruct (proj2 Hkeys) as [o Ho]; [by right|].
      exists o. f_equal. by apply lookup_result_singleton.
  - intros lines1 line lines2 m o Hsplit Hm Ho Hlast. f_equal.
    apply lookup_result_singleton. rewrite Hsplit in Hall |- *.
    apply Forall_app in Hall as [Hall1 _].
    eapply merged_lookup_last; [done..|].
    intros line' m' Hin Hm'. destruct (m' !! q) as [o'|] eqn:Ho'; [|done].
    destruct (proj1 (read_store_is_Some w _ _ _ q Hm')) as [url' Hdef]; [by eexists|].
    by destruct (Hlast line' url').
Qed.

Lemma C2_lookup_witness :
  (__call__ w_clash "go" (configured two_lines) init).1
  = Ok [bookmark_option None "/b" "go" (VStr "https://b.example/")].
Proof.
  assert (Forall (readable w_clash None) (split_crlf two_lines)) as Hall.
  { repeat constructor; by eexists. }
  destruct (C2_lookup_after_load w_clash "go" two_lines (configured two_lines) init
              eq_refl eq_refl Hall) as [_ Hlast].
  apply (Hlast ["/a"] "/b" [] _ _ eq_refl eq_refl eq_refl).
  by intros line' url' ?%elem_of_nil.
Defined.

(** The scenario of two profiles that both define [mail]. *)
Example scenario_mail :
  let data := "/a" +:+ CRLF +:+ "w|/b" in
  (__call__ w_mail "mail" (configured data) init).1
  = Ok [bookmark_option None "/a" "mail" (VStr "mail.a.com")]
  ∧ (__call__ w_mail "wmail" (configured data) init).1
    = Ok [bookmark_option None "/b" "wmail" (VStr "mail.b.com")].
Proof. split; reflexivity. Qed.

(** ** One profile per line *)

Lemma split_crlf_cons (c : ascii) (rest : string) :
  split_crlf (String c rest) =
  match rest with
  | String c' rest' =>
      if Ascii.eqb c CR && Ascii.eqb c' LF
      then EmptyString :: split_crlf rest'
      else match split_crlf rest with
           | [] => [String c EmptyString]
           | l :: ls => String c l :: ls
           end
  | EmptyString => [String c EmptyString]
  end.
Proof. by destruct rest. Qed.

Lemma split_crlf_last (s : string) :
  contains_crlf s = false → split_crlf s = [s].
Proof.
  induction s as [|c rest IH]; [done|].
  cbn [contains_crlf]. intros [Hhere Hrest]%orb_false_elim.
  rewrite split_crlf_cons. destruct rest as [|c' rest']; [done|].
  rewrite Hhere. by rewrite (IH Hrest).
Qed.

Lemma split_crlf_line (s t : string) :
  contains_crlf s = false →
  split_crlf (s +:+ CRLF +:+ t) = s :: split_crlf t.
Proof.
  induction s as [|c rest IH].
  - intros _. reflexivity.
  - cbn [contains_crlf]. intros [Hhere Hrest]%orb_false_elim.
    change (String c rest +:+ CRLF +:+ t) with (String c (rest +:+ CRLF +:+ t)).
    rewrite split_crlf_cons, (IH Hrest).
    destruct rest as [|c' rest'].
    + change (EmptyString +:+ CRLF +:+ t) with (String CR (String LF t)).
      cbv beta iota. change (Ascii.eqb CR LF) with false.
      by rewrite andb_false_r.
    + change (String c' rest' +:+ CRLF +:+ t) with (String c' (rest' +:+ CRLF +:+ t)).
      cbv beta iota. by rewrite Hhere.
Qed.

(** Splitting what [join_crlf] made of lines gives the lines back. *)
Lemma split_join_crlf (line : string) (lines : list string) :
  Forall (λ l, contains_crlf l = false) (line :: lines) →
  split_crlf (join_crlf (line :: lines)) = line :: lines.
Proof.
  revert line. induction lines as [|line' lines IH]; intros line Hall.
  - apply split_crlf_last. by inversion Hall.
  - apply Forall_cons in Hall as [Hline Hall].
    change (join_crlf (line :: line' :: lines))
      with (line +:+ CRLF +:+ join_crlf (line' :: lines)).
    by rewrite (split_crlf_line _ _ Hline), (IH _ Hall).
Qed.

(** C9. The configured string is cut at each carriage return followed by a
    line feed, the line ending of Windows, which hosts the launcher: a
    string made of lines joined by that separator splits into those lines
    again.  The load then takes the lines one by one in the configured
    order, calling [get_bookmarks] once on each, as far as the first line
    that cannot be read; when every line is readable, that is all of them,
    and the cache holds the merge of what they returned. *)
Theorem C9_one_profile_per_line (w : world) (q : string) (settings : Settings)
    (st : plugin) (line : string) (lines : list string) :
  Forall (λ l, contains_crlf l = false) (line :: lines) →
  profile_path_data settings = Some (join_crlf (line :: lines)) →
  join_crlf (line :: lines) ≠ EmptyString →
  cache st = None →
  split_crlf (join_crlf (line :: lines)) = line :: lines
  ∧ (∃ n : nat, (1 ≤ n ≤ length (line :: lines))%nat ∧
       trace (__call__ w q settings st).2
       = trace st ++ (GetBookmarks <$> take n (line :: lines)))
  ∧ (Forall (readable w (firefox_fp settings)) (line :: lines) →
     (__call__ w q settings st).2
     = {| cache := Some (merged w (firefox_fp settings) (line :: lines) ∅);
          trace := trace st ++ (GetBookmarks <$> line :: lines) |}).
Proof.
  intros Hlines Hs Hdata Hd.
  pose proof (split_join_crlf line lines Hlines) as Hsplit. split_and!; [done| |].
  - rewrite <- Hsplit. by apply call_unloaded_trace.
  - intros Hall. rewrite <- Hsplit in Hall.
    rewrite (call_unloaded_readable w q settings _ st Hs Hd Hall). cbn zeta.
    by rewrite Hsplit.
Qed.

Lemma C9_one_profile_per_line_witness :
  split_crlf two_lines = ["/a"; "/b"]
  ∧ trace (__call__ w_two_profiles "go" (configured two_lines) init).2
    = [GetBookmarks "/a"; GetBookmarks "/b"].
Proof.
  assert (Forall (readable w_two_profiles None) ["/a"; "/b"]) as Hall.
  { repeat constructor; by eexists. }
  destruct (C9_one_profile_per_line w_two_profiles "go" (configured two_lines) init
              "/a" ["/b"] ltac:(by repeat constructor) eq_refl ltac:(done) eq_refl)
    as (Hsplit & _ & Hstate).
  split; [exact Hsplit|]. by rewrite (Hstate Hall).
Defined.

(** ** What the cache holds *)

Section Invariant.
Variable w : world.

Implicit Types (d m : gmap string Option) (k q line : string) (st : plugin)
  (fp : option string).

Lemma read_store_entry_ok line fp m k o :
  read_store w line fp = Ok m → m !! k = Some o → entry_ok w k o.
Proof.
  intros Hm Hk.
  destruct (read_store_lookup_Some w fp line m k o Hm Hk) as (pp & url & _ & Hdef & ->).
  split; [done|]. by exists line, url.
Qed.

Lemma cache_ok_unloaded tr : cache_ok w {| cache := None; trace := tr |}.
Proof. by intros d k o. Qed.

Lemma cache_ok_trace st tr :
  cache_ok w st → cache_ok w {| cache := cache st; trace := tr |}.
Proof. intros Hok d k o. apply Hok. Qed.

Lemma cache_ok_update line fp m d tr :
  read_store w line fp = Ok m →
  cache_ok w {| cache := Some d; trace := tr |} →
  ∀ tr', cache_ok w {| cache := Some (m ∪ d); trace := tr' |}.
Proof.
  intros Hm Hok tr' d' k o [= <-] [Hk|[_ Hk]]%lookup_union_Some_raw.
  - by eapply read_store_entry_ok.
  - by apply (Hok d).
Qed.

Lemma load_profiles_cache_ok fp lines st :
  cache_ok w st → cache_ok w (load_profiles w fp lines st).2.
Proof.
  revert st. induction lines as [|line lines IH]; intros st Hok; [done|].
  rewrite load_profiles_cons. cbn zeta.
  destruct (cache st) as [d|] eqn:Hd; [|done].
  assert (∀ tr, cache_ok w {| cache := Some d; trace := tr |}) as Hd'.
  { intros tr d' k o [= <-]. by apply Hok. }
  destruct (read_store w line fp) as [m|e] eqn:Hm.
  - apply IH. by apply (cache_ok_update line fp m d (trace st) Hm).
  - destruct (decide (e = OperationalError)); [apply cache_ok_unloaded|apply Hd'].
Qed.

(** When the loop returns from inside, it has emptied the cache first. *)
Lemma load_profiles_early_return fp lines st out :
  (load_profiles w fp lines st).1 = Ok (Some out) →
  cache (load_profiles w fp lines st).2 = None.
Proof.
  revert st. induction lines as [|line lines IH]; intros st; [done|].
  rewrite load_profiles_cons. cbn zeta.
  destruct (cache st) as [d|]; [|done].
  destruct (read_store w line fp) as [m|e]; [apply IH|].
  by destruct (decide (e = OperationalError)).
Qed.

Lemma call_cache_ok q settings st :
  cache_ok w st → cache_ok w (__call__ w q settings st).2.
Proof.
  intros Hok.
  destruct (profile_path_data settings) as [data|] eqn:Hs;
    [|by rewrite call_unconfigured by auto].
  destruct (decide (data = EmptyString)) as [->|Hdata];
    [by rewrite call_unconfigured by auto|].
  destruct (cache st) as [d|] eqn:Hd.
  - by rewrite (call_loaded w q settings data st d Hs Hdata Hd).
  - rewrite (call_unloaded w q settings data st Hs Hdata Hd), finish_state.
    apply load_profiles_cache_ok.
    intros d k o [= <-] Hk. by rewrite lookup_empty in Hk.
Qed.

Lemma reload_cache_ok path fp st :
  cache_ok w st → cache_ok w (reload_cache w path fp st).2.
Proof.
  intros Hok. rewrite reload_cache_run.
  destruct (read_store w path fp) as [m|e] eqn:Hm; [|by apply cache_ok_trace].
  intros d k o [= <-] Hk. by eapply read_store_entry_ok.
Qed.

(** With profiles configured, a call that leaves the cache loaded has
    answered from it. *)
Lemma call_answer q settings data st r d :
  profile_path_data settings = Some data → data ≠ EmptyString →
  (__call__ w q settings st).1 = Ok r →
  cache (__call__ w q settings st).2 = Some d →
  r = lookup_result d q.
Proof.
  intros Hs Hdata. destruct (cache st) as [d0|] eqn:Hd.
  - rewrite (call_loaded w q settings data st d0 Hs Hdata Hd). simpl.
    intros [= <-] ?. congruence.
  - rewrite (call_unloaded w q settings data st Hs Hdata Hd).
    pose proof (load_profiles_early_return (firefox_fp settings) (split_crlf data)
                  {| cache := Some ∅; trace := trace st |}) as Hearly.
    destruct (load_profiles _ _ _ _) as [[[out|]|e] st']; simpl in *; [| |done].
    + intros _ Hst'. rewrite (Hearly out eq_refl) in Hst'. done.
    + unfold answer, bind, get_cache, ret, raise. cbv beta iota.
      destruct (cache st') as [d'|] eqn:Hd'; simpl; [|done].
      intros [= <-] Hst'. congruence.
Qed.
End Invariant.

(** C10. Every entry of a loaded cache sits under the key that is its title
    and is subtitled with a URL that a store resolves that key to.  This
    holds of the unloaded plugin, and the query handler, with its lazy load
    and its lookup, and the reload keep it, whether they return or raise.
    Hence a lookup of [q] that is answered from the cache with an option
    returns one titled [q]. *)
Theorem C10_entries_titled_by_key (w : world) (st : plugin) :
  cache_ok w init
  ∧ (cache_ok w st →
     (∀ q settings, cache_ok w (__call__ w q settings st).2)
     ∧ (∀ path fp, cache_ok w (reload_cache w path fp st).2)
     ∧ (∀ q settings data o,
          profile_path_data settings = Some data → data ≠ EmptyString →
          (__call__ w q settings st).1 = Ok [o] →
          is_loaded (__call__ w q settings st).2 = true →
          entry_ok w q o)).
Proof.
  split; [apply cache_ok_unloaded|]. intros Hok. split_and!.
  - intros q settings. by apply call_cache_ok.
  - intros path fp. by apply reload_cache_ok.
  - intros q settings data o Hs Hdata Hr Hloaded.
    pose proof (call_cache_ok w q settings st Hok) as Hok'.
    unfold is_loaded in Hloaded.
    destruct (cache (__call__ w q settings st).2) as [d|] eqn:Hd; [|done].
    pose proof (call_answer w q settings data st [o] d Hs Hdata Hr Hd) as Hans.
    symmetry in Hans. apply lookup_result_singleton in Hans.
    by apply (Hok' d).
Qed.

Lemma C10_entries_titled_by_key_witness :
  let o := bookmark_option None "/b" "mail" (VStr "https://b.example/") in
  (__call__ w_two_profiles "mail" (configured two_lines) init).1 = Ok [o]
  ∧ entry_ok w_two_profiles "mail" o.
Proof.
  intros o. split; [reflexivity|].
  destruct (C10_entries_titled_by_key w_two_profiles init) as [Hinit Hkeep].
  destruct (Hkeep Hinit) as (_ & _ & Hlookup).
  by apply (Hlookup "mail" (configured two_lines) two_lines o).
Defined.

(** * Further properties of the code *)

(** ** Splitting the configured string *)

Lemma string_pair_ind (P : string → Prop) :
  P EmptyString →
  (∀ c, P (String c EmptyString)) →
  (∀ c c' r, P r → P (String c' r) → P (String c (String c' r))) →
  ∀ s, P s.
Proof.
  intros H0 H1 H2 s.
  assert (P s ∧ ∀ c, P (String c s)) as [? _]; [|done].
  induction s as [|a r [IHr IHc]]; [by split|].
  split; [apply IHc|]. intros c. by apply H2.
Qed.

Lemma join_crlf_cons_char (c : ascii) (l : string) (ls : list string) :
  join_crlf (String c l :: ls) = String c (join_crlf (l :: ls)).
Proof. by destruct ls. Qed.

(** X1. Joining the lines that [split] returns with the separator gives
    the configured string back, whatever the string: no character of the
    setting is lost or added by the split. *)
Theorem split_crlf_join (s : string) : join_crlf (split_crlf s) = s.
Proof.
  induction s as [|c|c c' r IHr IHc] using string_pair_ind; [done..|].
  rewrite split_crlf_cons.
  destruct (Ascii.eqb c CR && Ascii.eqb c' LF) eqn:Hsep.
  - apply andb_prop in Hsep as [->%Ascii.eqb_eq ->%Ascii.eqb_eq].
    pose proof (split_crlf_nonempty r) as Hne.
    destruct (split_crlf r) as [|l ls] eqn:Hr; [done|].
    change (join_crlf (EmptyString :: l :: ls))
      with (String CR (String LF (join_crlf (l :: ls)))).
    by rewrite IHr.
  - pose proof (split_crlf_nonempty (String c' r)) as Hne.
    destruct (split_crlf (String c' r)) as [|l ls] eqn:Hr; [done|].
    by rewrite join_crlf_cons_char, IHc.
Qed.

Lemma split_crlf_head (s : string) (a : ascii) (l : string) (ls : list string) :
  split_crlf s = String a l :: ls → ∃ r, s = String a r.
Proof.
  destruct s as [|c rest]; [done|]. rewrite split_crlf_cons.
  destruct rest as [|c' rest'].
  - intros [= <- _ _]. by eexists.
  - destruct (Ascii.eqb c CR && Ascii.eqb c' LF); [done|].
    destruct (split_crlf (String c' rest')); intros [= <- _ _]; by eexists.
Qed.

(** X2. No line that [split] returns contains the separator. *)
Theorem split_crlf_lines_clean (s : string) :
  Forall (λ l, contains_crlf l = false) (split_crlf s).
Proof.
  induction s as [|c|c c' r IHr IHc] using string_pair_ind.
  - by repeat constructor.
  - by repeat constructor.
  - rewrite split_crlf_cons.
    destruct (Ascii.eqb c CR && Ascii.eqb c' LF) eqn:Hsep; [by constructor|].
    destruct (split_crlf (String c' r)) as [|l ls] eqn:Hr; [by repeat constructor|].
    apply Forall_cons in IHc as [Hl Hls]. constructor; [|done].
    cbn [contains_crlf]. rewrite Hl, orb_false_r.
    destruct l as [|a l']; [done|].
    apply split_crlf_head in Hr as [r' [= <- _]]. done.
Qed.

Lemma split_crlf_trailing (s : string) :
  split_crlf (s +:+ CRLF) = split_crlf s ++ [EmptyString].
Proof.
  induction s as [|c|c c' r IHr IHc] using string_pair_ind.
  - reflexivity.
  - change (String c EmptyString +:+ CRLF) with (String c (String CR (String LF EmptyString))).
    rewrite split_crlf_cons. change (Ascii.eqb CR LF) with false.
    by rewrite andb_false_r.
  - change (String c (String c' r) +:+ CRLF) with (String c (String c' (r +:+ CRLF))).
    rewrite (split_crlf_cons c (String c' (r +:+ CRLF))), (split_crlf_cons c (String c' r)).
    destruct (Ascii.eqb c CR && Ascii.eqb c' LF); [by rewrite IHr|].
    change (String c' (r +:+ CRLF)) with (String c' r +:+ CRLF). rewrite IHc.
    pose proof (split_crlf_nonempty (String c' r)) as Hne.
    by destruct (split_crlf (String c' r)).
Qed.

(** X3. A configured string that ends with a line break has an empty last
    line.  When the lines before it are readable, the lazy load reads them
    all, then raises [IndexError] on the empty line; the exception leaves
    [__call__], and the cache stays loaded with the merge of the lines
    read. *)
Theorem call_trailing_line_break (w : world) (q data : string) (settings : Settings)
    (st : plugin) :
  profile_path_data settings = Some (data +:+ CRLF) →
  cache st = None →
  Forall (readable w (firefox_fp settings)) (split_crlf data) →
  __call__ w q settings st
  = (Raise IndexError,
     {| cache := Some (merged w (firefox_fp settings) (split_crlf data) ∅);
        trace := trace st ++ (GetBookmarks <$> split_crlf data ++ [EmptyString]) |}).
Proof.
  intros Hs Hd Hall.
  assert (data +:+ CRLF ≠ EmptyString) as Hdata by by destruct data.
  rewrite (call_unloaded w q settings _ st Hs Hdata Hd), split_crlf_trailing.
  by rewrite (load_profiles_fails w _ (split_crlf data) EmptyString []
                {| cache := Some ∅; trace := trace st |} ∅ IndexError eq_refl Hall eq_refl).
Qed.

Lemma call_trailing_line_break_witness :
  __call__ w_two_profiles "go" (configured (two_lines +:+ CRLF)) init
  = (Raise IndexError,
     {| cache := Some (merged w_two_profiles None ["/a"; "/b"] ∅);
        trace := [GetBookmarks "/a"; GetBookmarks "/b"; GetBookmarks EmptyString] |}).
Proof.
  apply (call_trailing_line_break w_two_profiles "go" two_lines
           (configured (two_lines +:+ CRLF)) init eq_refl eq_refl).
  repeat constructor; by eexists.
Defined.

(** ** What the query handler returns *)

Lemma lookup_result_length (d : gmap string Option) (q : string) :
  (length (lookup_result d q) ≤ 1)%nat.
Proof. unfold lookup_result. destruct (d !! q); simpl; lia. Qed.

(** What the loop returns from inside is the one option that names the
    line it could not open. *)
Lemma load_profiles_returns (w : world) (fp : option string) (lines : list string)
    (st : plugin) (out : list Option) :
  (load_profiles w fp lines st).1 = Ok (Some out) →
  ∃ line, line ∈ lines ∧ out = [unable_to_open_option line].
Proof.
  revert st. induction lines as [|line lines IH]; intros st; [done|].
  rewrite load_profiles_cons. cbn zeta.
  destruct (cache st) as [d|]; [|done].
  destruct (read_store w line fp) as [m|e].
  - intros (line' & ? & ->)%IH. exists line'. split; [here_or_later|done].
  - destruct (decide (e = OperationalError)); [|done].
    intros [= <-]. exists line. split; [here_or_later|done].
Qed.

(** X4. Whatever the stores, the settings, the query and the state of the
    cache, a call that returns gives the launcher at most one option. *)
Theorem call_at_most_one_option (w : world) (q : string) (settings : Settings)
    (st : plugin) (r : list Option) :
  (__call__ w q settings st).1 = Ok r → (length r ≤ 1)%nat.
Proof.
  destruct (profile_path_data settings) as [data|] eqn:Hs;
    [|rewrite call_unconfigured by auto; by intros [= <-]].
  destruct (decide (data = EmptyString)) as [->|Hdata];
    [rewrite call_unconfigured by auto; by intros [= <-]|].
  destruct (cache st) as [d|] eqn:Hd.
  - rewrite (call_loaded w q settings data st d Hs Hdata Hd).
    intros [= <-]. apply lookup_result_length.
  - rewrite (call_unloaded w q settings data st Hs Hdata Hd).
    pose proof (load_profiles_returns w (firefox_fp settings) (split_crlf data)
                  {| cache := Some ∅; trace := trace st |}) as Hret.
    destruct (load_profiles _ _ _ _) as [[[out|]|e] st']; simpl in *; [| |done].
    + intros [= <-]. by destruct (Hret out eq_refl) as (line & _ & ->).
    + unfold answer, bind, get_cache, ret, raise. cbv beta iota.
      destruct (cache st') as [d'|]; simpl; [|done].
      intros [= <-]. apply lookup_result_length.
Qed.

Lemma call_at_most_one_option_witness :
  (length [bookmark_option None "/b" "go" (VStr "https://b.example/")] ≤ 1)%nat.
Proof.
  by apply (call_at_most_one_option w_clash "go" (configured two_lines) init).
Defined.

(** X5. Once the cache is loaded, a call with a profile setting that is
    not empty depends on the cache and the query alone: the stores are not
    read again, and neither a changed profile setting nor a changed browser
    directory shows in the answer or in the state. *)
Theorem call_loaded_ignores_stores_and_settings (w w' : world) (q : string)
    (settings settings' : Settings) (data data' : string) (st : plugin) :
  is_loaded st = true →
  profile_path_data settings = Some data → data ≠ EmptyString →
  profile_path_data settings' = Some data' → data' ≠ EmptyString →
  __call__ w q settings st = __call__ w' q settings' st
  ∧ (__call__ w q settings st).2 = st.
Proof.
  unfold is_loaded. destruct (cache st) as [d|] eqn:Hd; [|done].
  intros _ Hs Hdata Hs' Hdata'.
  rewrite (call_loaded w q settings data st d Hs Hdata Hd).
  by rewrite (call_loaded w' q settings' data' st d Hs' Hdata' Hd).
Qed.

Lemma call_loaded_ignores_witness :
  let st := (__call__ w_two_profiles "go" (configured two_lines) init).2 in
  __call__ w_two_profiles "go" (configured two_lines) st
  = __call__ nowhere "go" {| profile_path_data := Some "/c"; firefox_fp := Some "/ff" |} st.
Proof.
  intros st.
  exact (proj1 (call_loaded_ignores_stores_and_settings w_two_profiles nowhere "go"
                  (configured two_lines)
                  {| profile_path_data := Some "/c"; firefox_fp := Some "/ff" |}
                  two_lines "/c" st eq_refl eq_refl ltac:(done) eq_refl ltac:(done))).
Defined.

(** X6. After a lazy load that a caught [OperationalError] stopped, the
    plugin needs no restart: the next query, made when every configured
    line is readable, loads all the lines from an empty dict and is
    answered from their merge. *)
Theorem call_recovers_after_failed_load (w w' : world) (q q' data : string)
    (settings : Settings) (lines1 : list string) (bad : string)
    (lines2 : list string) (st : plugin) :
  profile_path_data settings = Some data →
  split_crlf data = lines1 ++ bad :: lines2 →
  cache st = None →
  Forall (readable w (firefox_fp settings)) lines1 →
  read_store w bad (firefox_fp settings) = Raise OperationalError →
  Forall (readable w' (firefox_fp settings)) (split_crlf data) →
  let st1 := (__call__ w q settings st).2 in
  let d := merged w' (firefox_fp settings) (split_crlf data) ∅ in
  __call__ w' q' settings st1
  = (Ok (lookup_result d q'),
     {| cache := Some d; trace := trace st1 ++ (GetBookmarks <$> split_crlf data) |}).
Proof.
  intros Hs Hsplit Hd Hall Hbad Hall' st1 d.
  assert (data ≠ EmptyString) as Hdata.
  { intros ->. destruct lines1 as [|? [|]]; simplify_eq/=. }
  assert (cache st1 = None) as Hd1.
  { unfold st1. rewrite (call_unloaded w q settings data st Hs Hdata Hd), Hsplit.
    by rewrite (load_profiles_fails w _ lines1 bad lines2
                  {| cache := Some ∅; trace := trace st |} ∅ _ eq_refl Hall Hbad). }
  by rewrite (call_unloaded_readable w' q' settings data st1 Hs Hd1 Hall').
Qed.

Lemma call_recovers_witness :
  let w := store_at "/a" (one_bookmark "go" "https://a.example/") nowhere in
  let st1 := (__call__ w "mail" (configured two_lines) init).2 in
  (__call__ w_two_profiles "mail" (configured two_lines) st1).1
  = Ok [bookmark_option None "/b" "mail" (VStr "https://b.example/")].
Proof.
  intros w st1.
  assert (Forall (readable w_two_profiles None) (split_crlf two_lines)) as Hall'.
  { repeat constructor; by eexists. }
  assert (Forall (readable w None) ["/a"]) as Hall.
  { repeat constructor; by eexists. }
  pose proof (call_recovers_after_failed_load w w_two_profiles "mail" "mail" two_lines
                (configured two_lines) ["/a"] "/b" [] init
                eq_refl eq_refl eq_refl Hall eq_refl Hall') as Hrec.
  cbv zeta in Hrec. unfold st1. by rewrite Hrec.
Defined.

(** X7. With a profile setting that is not empty, when the first line that
    cannot be read raises something else than [OperationalError], the lines
    before it being readable, [__call__]
    raises that exception after calling [get_bookmarks] on the lines up to
    that one, no line after it is read, and the cache holds the merge of
    the lines before it. *)
Theorem call_uncaught_failure (w : world) (q data : string) (settings : Settings)
    (lines1 : list string) (bad : string) (lines2 : list string) (st : plugin)
    (e : exn) :
  profile_path_data settings = Some data →
  data ≠ EmptyString →
  split_crlf data = lines1 ++ bad :: lines2 →
  cache st = None →
  Forall (readable w (firefox_fp settings)) lines1 →
  read_store w bad (firefox_fp settings) = Raise e →
  e ≠ OperationalError →
  __call__ w q settings st
  = (Raise e,
     {| cache := Some (merged w (firefox_fp settings) lines1 ∅);
        trace := trace st ++ (GetBookmarks <$> lines1 ++ [bad]) |}).
Proof.
  intros Hs Hdata Hsplit Hd Hall Hbad He.
  rewrite (call_unloaded w q settings data st Hs Hdata Hd), Hsplit.
  rewrite (load_profiles_fails w _ lines1 bad lines2
             {| cache := Some ∅; trace := trace st |} ∅ e eq_refl Hall Hbad).
  cbn zeta. by destruct (decide (e = OperationalError)).
Qed.

Lemma call_uncaught_failure_witness :
  let w := store_at "/a" (one_bookmark "go" "https://a.example/")
             (store_at "/b" not_a_database nowhere) in
  __call__ w "go" (configured two_lines) init
  = (Raise DatabaseError,
     {| cache := Some (merged w None ["/a"] ∅);
        trace := [GetBookmarks "/a"; GetBookmarks "/b"] |}).
Proof.
  intros w.
  apply (call_uncaught_failure w "go" two_lines (configured two_lines) ["/a"] "/b" []
           init DatabaseError eq_refl ltac:(done) eq_refl eq_refl); [|reflexivity|done].
  repeat constructor; by eexists.
Defined.

(** ** What [get_bookmarks] returns *)

(** X8. Every entry that [get_bookmarks] returns for a configured line is
    the option built for its key: titled with the key, subtitled with the
    URL of a keyword record of the store that resolves to the key, with the
    plugin's icon, with the action that opens that same URL for the profile
    path without its prefix and the browser directory given, and with the
    context data made of that path, that directory, the key and the URL. *)
Theorem get_bookmarks_entries (w : world) (fp : option string) (line k : string)
    (m : gmap string Option) (o : Option) :
  read_store w line fp = Ok m →
  m !! k = Some o →
  ∃ pp url,
    split_prefix line = Ok pp ∧ defines w line k url
    ∧ title o = k ∧ sub o = Some url ∧ icon o = Some "Images/app.png"
    ∧ action o = Some (Action_open_url fp pp.2 url)
    ∧ context_data o
      = Some [CtxValue (VStr pp.2); CtxValue (of_opt_str fp);
              CtxDict [("keyword", VStr k); ("url", url)]].
Proof.
  intros Hm Hk.
  destruct (read_store_lookup_Some w fp line m k o Hm Hk) as (pp & url & ? & ? & ->).
  by exists pp, url.
Qed.

Lemma get_bookmarks_entries_witness :
  ∃ pp url,
    split_prefix "A|/path/to/profile" = Ok pp
    ∧ defines (store_at "/path/to/profile" (one_bookmark "go" "https://example.org/")
                 nowhere) "A|/path/to/profile" "Ago" url
    ∧ pp.2 = "/path/to/profile" ∧ url = VStr "https://example.org/".
Proof.
  destruct (get_bookmarks_entries
              (store_at "/path/to/profile" (one_bookmark "go" "https://example.org/") nowhere)
              None "A|/path/to/profile" "Ago" _ _ eq_refl eq_refl)
    as (pp & url & Hpp & Hdef & _ & Hsub & _).
  exists pp, url. injection Hpp as <-. injection Hsub as <-. by split_and!.
Defined.

Section Prefix.
Variable con : connection.
Variable c : ascii.
Variable profile_path : string.
Variable fp : option string.

(** One row keeps the relation between the mapping built without a prefix
    and the one built with the prefix [c]; it fails in both or in none. *)
Lemma add_row_shift (f1 f2 : gmap string Option) (row : tuple) :
  keys_shifted c f1 f2 →
  match add_row con EmptyString profile_path fp f1 row,
        add_row con (String c EmptyString) profile_path fp f2 row with
  | Ok m1, Ok m2 => keys_shifted c m1 m2
  | Raise e1, Raise e2 => e1 = e2
  | _, _ => False
  end.
Proof.
  intros [Hurl Hkeys]. unfold add_row.
  destruct (truthy row); [|done].
  destruct (index row 2) as [place_id|]; [simpl|done].
  destruct (index row 1) as [raw|]; [simpl|done].
  destruct (moz_places con place_id) as [[place|]|]; [simpl|done..].
  destruct (truthy place); [|done].
  destruct (index place 1) as [url|]; [simpl|done].
  change (String c EmptyString +:+ str raw) with (String c (str raw)).
  change (EmptyString +:+ str raw) with (str raw).
  split.
  - intros k. destruct (decide (str raw = k)) as [<-|Hne].
    + by rewrite !lookup_insert_eq.
    + rewrite !lookup_insert_ne by congruence. apply Hurl.
  - intros k'. destruct (decide (String c (str raw) = k')) as [<-|Hne].
    + intros _. by eexists.
    + rewrite lookup_insert_ne by done. apply Hkeys.
Qed.

Lemma add_rows_shift (rows : list tuple) (f1 f2 : gmap string Option) :
  keys_shifted c f1 f2 →
  match add_rows con EmptyString profile_path fp f1 rows,
        add_rows con (String c EmptyString) profile_path fp f2 rows with
  | Ok m1, Ok m2 => keys_shifted c m1 m2
  | Raise e1, Raise e2 => e1 = e2
  | _, _ => False
  end.
Proof.
  revert f1 f2. induction rows as [|row rows IH]; intros f1 f2 Hf; [done|].
  cbn [add_rows]. pose proof (add_row_shift f1 f2 row Hf) as Hrow.
  destruct (add_row con EmptyString profile_path fp f1 row) as [m1|e1],
           (add_row con (String c EmptyString) profile_path fp f2 row) as [m2|e2];
    simpl; try done.
  by apply IH.
Qed.
End Prefix.

Lemma read_store_shift (w : world) (fp : option string) (c : ascii) (p : string) :
  split_prefix p = Ok (EmptyString, p) →
  match read_store w p fp, read_store w (String c (String "|"%char p)) fp with
  | Ok m, Ok m' => keys_shifted c m m'
  | Raise e, Raise e' => e = e'
  | _, _ => False
  end.
Proof.
  intros Hp. unfold read_store. rewrite Hp, split_prefix_sep.
  cbn [rbind fst snd].
  destruct (w p) as [con|e0]; simpl; [|done].
  destruct (moz_keywords con) as [rows|e0]; simpl; [|done].
  apply add_rows_shift.
  split; [done|]. intros k' [? Hk]. by rewrite lookup_empty in Hk.
Qed.

(** X9. A prefix only renames: for a profile path [p] that is itself read
    without a prefix, the line [c|p] is read from the same store, fails
    exactly when [p] fails and with the same exception, and otherwise gives
    the mapping of [p] with [c] put before every key, each key with the URL
    it has for [p], and no key besides. *)
Theorem prefix_only_renames (w : world) (fp : option string) (c : ascii) (p : string) :
  split_prefix p = Ok (EmptyString, p) →
  (∀ e, read_store w (String c (String "|"%char p)) fp = Raise e ↔
        read_store w p fp = Raise e)
  ∧ (∀ m m', read_store w p fp = Ok m →
             read_store w (String c (String "|"%char p)) fp = Ok m' →
             keys_shifted c m m').
Proof.
  intros Hshift%(read_store_shift w fp c).
  destruct (read_store w p fp) as [m1|e1],
           (read_store w (String c (String "|"%char p)) fp) as [m2|e2]; try done.
  - split; [by intros e|]. by intros m m' [= <-] [= <-].
  - subst. split; [by intros e|]. by intros m m' ?.
Qed.

Lemma prefix_only_renames_witness :
  let w := store_at "/a" (one_bookmark "go" "https://a.example/") nowhere in
  keys_shifted "w"%char
    {[ "go" := bookmark_option None "/a" "go" (VStr "https://a.example/") ]}
    {[ "wgo" := bookmark_option None "/a" "wgo" (VStr "https://a.example/") ]}.
Proof.
  intros w.
  exact (proj2 (prefix_only_renames w None "w"%char "/a" eq_refl) _ _ eq_refl eq_refl).
Defined.

(** X10. When a store holds several records that resolve to the same full
    keyword, the entry returned is that of the record that comes last in
    [moz_keywords]. *)
Theorem later_record_wins (w : world) (fp : option string) (line : string)
    (pp : string * string) (con : connection) (rows1 : list tuple) (row : tuple)
    (rows2 : list tuple) (m : gmap string Option) (k : string) (url : value) :
  split_prefix line = Ok pp → w pp.2 = Ok con →
  moz_keywords con = Ok (rows1 ++ row :: rows2) →
  read_store w line fp = Ok m →
  contributes con pp.1 row k url →
  (∀ row' url', row' ∈ rows2 → ¬ contributes con pp.1 row' k url') →
  m !! k = Some (bookmark_option fp pp.2 k url).
Proof.
  intros Hpp Hw Hrows (pp' & con' & rows' & ? & ? & ? & Hadd)%read_store_Ok Hc Hlast.
  assert (pp' = pp) as -> by congruence.
  assert (con' = con) as -> by congruence.
  assert (rows' = rows1 ++ row :: rows2) as -> by congruence.
  by eapply add_rows_last.
Qed.

Lemma later_record_wins_witness :
  let rows := [[VInt 1; VStr "go"; VInt 5; VNone]; [VInt 2; VStr "go"; VInt 6; VNone]] in
  let urls := fun n : Z => if decide (n = 5%Z) then "https://old.example/"
                           else "https://new.example/" in
  read_store (store_at "/a" (store_of rows urls) nowhere) "/a" None
  = Ok {[ "go" := bookmark_option None "/a" "go" (VStr "https://new.example/") ]}
  ∧ ({[ "go" := bookmark_option None "/a" "go" (VStr "https://new.example/") ]}
       : gmap string Option) !! "go"
    = Some (bookmark_option None "/a" "go" (VStr "https://new.example/")).
Proof.
  intros rows urls. split; [reflexivity|].
  apply (later_record_wins (store_at "/a" (store_of rows urls) nowhere) None "/a"
           (EmptyString, "/a") (store_of rows urls)
           [[VInt 1; VStr "go"; VInt 5; VNone]] [VInt 2; VStr "go"; VInt 6; VNone] []
           _ "go" (VStr "https://new.example/") eq_refl eq_refl eq_refl eq_refl).
  - by exists (VInt 6), (VStr "go"), [VInt 6; VStr "https://new.example/"].
  - by intros row' url' ?%elem_of_nil.
Defined.

(** X11. A row of [moz_keywords] that is not empty and has fewer than three
    columns makes [get_bookmarks] raise [IndexError] when the rows before
    it were read without an error; no mapping is returned, whatever the
    rows after it. *)
Theorem short_row_raises (w : world) (fp : option string) (line : string)
    (pp : string * string) (con : connection) (rows1 : list tuple) (row : tuple)
    (rows2 : list tuple) (m1 : gmap string Option) :
  split_prefix line = Ok pp → w pp.2 = Ok con →
  moz_keywords con = Ok (rows1 ++ row :: rows2) →
  add_rows con pp.1 pp.2 fp ∅ rows1 = Ok m1 →
  row ≠ [] → (length row < 3)%nat →
  read_store w line fp = Raise IndexError.
Proof.
  intros Hpp Hw Hrows Hrows1 Hne Hlen. unfold read_store.
  rewrite Hpp. simpl. rewrite Hw. simpl. rewrite Hrows. simpl.
  rewrite add_rows_app, Hrows1. simpl.
  destruct row as [|c0 [|c1 [|c2 row]]]; [done|done|done|simpl in Hlen; lia].
Qed.

Lemma short_row_raises_witness :
  read_store (store_at "/b" two_columns nowhere) "/b" None = Raise IndexError.
Proof.
  by apply (short_row_raises (store_at "/b" two_columns nowhere) None "/b"
              (EmptyString, "/b") two_columns [] [VInt 1; VStr "go"] [] ∅
              eq_refl eq_refl eq_refl eq_refl); [|simpl; lia].
Defined.

(** ** The context menu *)

Lemma context_menu_marker (rest : list ctx) :
  context_menu (CtxValue (VStr "NO_PROFILE_DATA_PATH_ERROR") :: rest) = Ok error_menu.
Proof. reflexivity. Qed.

Lemma context_menu_bookmark_data (fp : option string) (path k : string) (url : value) :
  context_menu [CtxValue (VStr path); CtxValue (of_opt_str fp);
                CtxDict [("keyword", VStr k); ("url", url)]]
  = Ok (if String.eqb path "NO_PROFILE_DATA_PATH_ERROR"
        then error_menu else bookmark_menu fp path k url).
Proof.
  unfold context_menu, is_no_profile_error.
  by destruct (String.eqb path "NO_PROFILE_DATA_PATH_ERROR").
Qed.

(** X12. The context menu of a bookmark that [get_bookmarks] returned, its
    profile path not being the marker of the missing-profile error, has
    four options in this order: reload the cache for that profile path and
    browser directory, open the log file, copy the keyword, copy the URL;
    the two copy options show and copy the entry's key and the entry's
    subtitle URL. *)
Theorem context_menu_of_bookmark (w : world) (fp : option string) (line k : string)
    (pp : string * string) (m : gmap string Option) (o : Option) :
  read_store w line fp = Ok m →
  m !! k = Some o →
  split_prefix line = Ok pp →
  pp.2 ≠ "NO_PROFILE_DATA_PATH_ERROR" →
  ∃ data url,
    context_data o = Some data ∧ sub o = Some url
    ∧ context_menu data = Ok (bookmark_menu fp pp.2 k url).
Proof.
  intros Hm Hk Hpp Hne.
  destruct (read_store_lookup_Some w fp line m k o Hm Hk) as (pp' & url & ? & _ & ->).
  assert (pp' = pp) as -> by congruence.
  eexists _, url. split_and!; [reflexivity..|].
  rewrite context_menu_bookmark_data.
  by destruct (String.eqb_spec pp.2 "NO_PROFILE_DATA_PATH_ERROR").
Qed.

Lemma context_menu_of_bookmark_witness :
  context_menu [CtxValue (VStr "/a"); CtxValue VNone;
                CtxDict [("keyword", VStr "go"); ("url", VStr "https://a.example/")]]
  = Ok (bookmark_menu None "/a" "go" (VStr "https://a.example/")).
Proof.
  destruct (context_menu_of_bookmark
              (store_at "/a" (one_bookmark "go" "https://a.example/") nowhere)
              None "/a" "go" (EmptyString, "/a") _ _ eq_refl eq_refl eq_refl ltac:(done))
    as (data & url & Hdata & Hsub & Hmenu).
  injection Hdata as <-. injection Hsub as <-. exact Hmenu.
Defined.

(** X13. [context_menu] raises in two cases only, the data not starting
    with the marker of the missing-profile error: [ValueError] when the
    data does not have exactly three elements, and [AttributeError] when
    the third element is a value that is truthy, which has no items to
    offer. *)
Theorem context_menu_raises (data : list ctx) (e : exn) :
  context_menu data = Raise e ↔
  is_no_profile_error data = false
  ∧ ((length data ≠ 3%nat ∧ e = ValueError)
     ∨ (∃ a b v, data = [a; b; CtxValue v] ∧ ctx_truthy (CtxValue v) = true
                 ∧ e = AttributeError)).
Proof.
  unfold context_menu. destruct (is_no_profile_error data) eqn:Hmark.
  { split; [done|]. by intros [? _]. }
  destruct data as [|a [|b [|x [|y data]]]].
  1-3, 5: split; [intros [= <-]; split; [done|]; left; by split|];
    intros [_ [[_ ->]|(? & ? & ? & ? & _)]]; done.
  unfold copy_options_of. destruct (ctx_truthy x) eqn:Hx; simpl.
  - destruct x as [v|items]; simpl.
    + split; [intros [= <-]; split; [done|]; right; by exists a, b, v|].
      intros [_ [[? _]|(? & ? & ? & _ & _ & ->)]]; done.
    + split; [done|]. intros [_ [[? _]|(? & ? & ? & ? & _)]]; done.
  - split; [done|]. intros [_ [[? _]|(? & ? & ? & [= -> -> ->] & Ht & _)]]; [done|].
    simpl in Hx. congruence.
Qed.

Lemma context_menu_raises_witness :
  context_menu [] = Raise ValueError
  ∧ context_menu [CtxValue (VStr "/a"); CtxValue VNone; CtxValue (VStr "go")]
    = Raise AttributeError.
Proof.
  split.
  - apply context_menu_raises. split; [done|]. left. by split.
  - apply context_menu_raises. split; [done|]. right. by eexists _, _, _.
Defined.

(** ** Options of the cache and their menus *)

Section Built.
Variable w : world.

Implicit Types (d m : gmap string Option) (k q line : string) (st : plugin)
  (fp : option string).

Lemma read_store_built line fp m k o :
  read_store w line fp = Ok m → m !! k = Some o →
  ∃ fp' path url, o = bookmark_option fp' path k url.
Proof.
  intros Hm Hk.
  destruct (read_store_lookup_Some w fp line m k o Hm Hk) as (pp & url & _ & _ & ->).
  by eexists _, _, _.
Qed.

Lemma load_profiles_built fp lines st :
  cache_built st → cache_built (load_profiles w fp lines st).2.
Proof.
  revert st. induction lines as [|line lines IH]; intros st Hok; [done|].
  rewrite load_profiles_cons. cbn zeta.
  destruct (cache st) as [d|] eqn:Hd; [|done].
  destruct (read_store w line fp) as [m|e] eqn:Hm.
  - apply IH. intros d' k o [= <-] [Hk|[_ Hk]]%lookup_union_Some_raw.
    + by eapply read_store_built.
    + by apply (Hok d).
  - destruct (decide (e = OperationalError)); [by intros d' k o|].
    intros d' k o [= <-]. by apply Hok.
Qed.

Lemma call_built q settings st :
  cache_built st → cache_built (__call__ w q settings st).2.
Proof.
  intros Hok.
  destruct (profile_path_data settings) as [data|] eqn:Hs;
    [|by rewrite call_unconfigured by auto].
  destruct (decide (data = EmptyString)) as [->|Hdata];
    [by rewrite call_unconfigured by auto|].
  destruct (cache st) as [d|] eqn:Hd.
  - by rewrite (call_loaded w q settings data st d Hs Hdata Hd).
  - rewrite (call_unloaded w q settings data st Hs Hdata Hd), finish_state.
    apply load_profiles_built.
    intros d k o [= <-] Hk. by rewrite lookup_empty in Hk.
Qed.

Lemma reload_built path fp st :
  cache_built st → cache_built (reload_cache w path fp st).2.
Proof.
  intros Hok. rewrite reload_cache_run.
  destruct (read_store w path fp) as [m|e] eqn:Hm.
  - intros d k o [= <-] Hk. by eapply read_store_built.
  - intros d k o. apply Hok.
Qed.

(** The options a call can return. *)
Lemma call_returns q settings st r o :
  cache_built st →
  (__call__ w q settings st).1 = Ok r → o ∈ r →
  o = no_profile_option ∨ (∃ line, o = unable_to_open_option line)
  ∨ ∃ fp path url, o = bookmark_option fp path q url.
Proof.
  intros Hok.
  assert (∀ d, cache_built {| cache := Some d; trace := [] |} →
               o ∈ lookup_result d q →
               ∃ fp path url, o = bookmark_option fp path q url) as Hlookup.
  { intros d Hd. unfold lookup_result. destruct (d !! q) as [o'|] eqn:Hq.
    - intros ->%list_elem_of_singleton. by apply (Hd d).
    - by intros ?%elem_of_nil. }
  destruct (profile_path_data settings) as [data|] eqn:Hs;
    [|rewrite call_unconfigured by auto; intros [= <-] ->%list_elem_of_singleton; auto].
  destruct (decide (data = EmptyString)) as [->|Hdata];
    [rewrite call_unconfigured by auto; intros [= <-] ->%list_elem_of_singleton; auto|].
  destruct (cache st) as [d|] eqn:Hd.
  - rewrite (call_loaded w q settings data st d Hs Hdata Hd).
    intros [= <-] Hin. right. right. apply (Hlookup d); [|done].
    intros d' k o' [= <-]. by apply Hok.
  - rewrite (call_unloaded w q settings data st Hs Hdata Hd).
    pose proof (load_profiles_returns w (firefox_fp settings) (split_crlf data)
                  {| cache := Some ∅; trace := trace st |}) as Hret.
    pose proof (load_profiles_built (firefox_fp settings) (split_crlf data)
                  {| cache := Some ∅; trace := trace st |}) as Hbuilt.
    destruct (load_profiles _ _ _ _) as [[[out|]|e] st']; simpl in *; [| |done].
    + intros [= <-] Hin. destruct (Hret out eq_refl) as (line & _ & ->).
      apply list_elem_of_singleton in Hin as ->. right. left. by exists line.
    + unfold answer, bind, get_cache, ret, raise. cbv beta iota.
      destruct (cache st') as [d'|] eqn:Hd'; simpl; [|done].
      intros [= <-] Hin. right. right. apply (Hlookup d'); [|done].
      assert (cache_built st') as Hst'.
      { apply Hbuilt. intros d0 k0 o0 [= <-] Hk0. by rewrite lookup_empty in Hk0. }
      intros d'' k o' [= <-]. by apply (Hst' d').
Qed.
End Built.

(** X14. The options of the cache are options that [get_bookmarks] built
    for their keys; the unloaded plugin satisfies this, and [__call__] and
    [reload_cache] keep it, whether they return or raise.  Hence
    [context_menu] does not raise on the context data of any option that a
    call returns: it offers the bookmark menu, or the menu of the
    missing-profile error. *)
Theorem context_menu_total_on_returned_options (w : world) (st : plugin) :
  cache_built init
  ∧ (cache_built st →
     (∀ q settings, cache_built (__call__ w q settings st).2)
     ∧ (∀ path fp, cache_built (reload_cache w path fp st).2)
     ∧ (∀ q settings r o data,
          (__call__ w q settings st).1 = Ok r → o ∈ r →
          context_data o = Some data →
          context_menu data = Ok error_menu
          ∨ ∃ fp path url, context_menu data = Ok (bookmark_menu fp path q url))).
Proof.
  split; [by intros d k o|]. intros Hok. split_and!.
  - intros q settings. by apply call_built.
  - intros path fp. by apply reload_built.
  - intros q settings r o data Hr Hin Hdata.
    destruct (call_returns w q settings st r o Hok Hr Hin)
      as [->|[[line ->]|(fp & path & url & ->)]]; [| done |].
    + injection Hdata as <-. by left.
    + injection Hdata as <-. rewrite context_menu_bookmark_data.
      destruct (String.eqb path "NO_PROFILE_DATA_PATH_ERROR"); [by left|].
      right. by exists fp, path, url.
Qed.

Lemma context_menu_total_witness :
  context_menu [CtxValue (VStr "NO_PROFILE_DATA_PATH_ERROR")] = Ok error_menu
  ∨ ∃ fp path url,
      context_menu [CtxValue (VStr "NO_PROFILE_DATA_PATH_ERROR")]
      = Ok (bookmark_menu fp path "go" url).
Proof.
  destruct (context_menu_total_on_returned_options nowhere init) as [Hinit Hkeep].
  destruct (Hkeep Hinit) as (_ & _ & Hmenu).
  apply (Hmenu "go" {| profile_path_data := None; firefox_fp := None |}
           [no_profile_option] no_profile_option); [reflexivity| |reflexivity].
  apply elem_of_cons. by left.
Defined.

(** ** Reload from the menu of a prefixed profile *)

(** X15. The reload that the menu of a bookmark offers is given the
    profile path without the prefix.  So for a line [c|p], [p] being a path
    that is read without a prefix: every entry loaded from the line names
    [p] in its context data, and reloading with [p] succeeds, reads the
    same store and leaves a cache that holds the bookmarks of the line
    under their keywords without [c]. *)
Theorem reload_drops_prefix (w : world) (fp : option string) (c : ascii) (p : string)
    (m : gmap string Option) (st : plugin) :
  split_prefix p = Ok (EmptyString, p) →
  read_store w (String c (String "|"%char p)) fp = Ok m →
  (∀ k o, m !! k = Some o →
     ∃ url, context_data o
            = Some [CtxValue (VStr p); CtxValue (of_opt_str fp);
                    CtxDict [("keyword", VStr k); ("url", url)]])
  ∧ ∃ m', reload_cache w p fp st
          = (Ok (mkExecuteResponse false),
             {| cache := Some m';
                trace := trace st ++ [GetBookmarks p; reloaded_message] |})
          ∧ keys_shifted c m' m.
Proof.
  intros Hp Hm. split.
  - intros k o Hk.
    destruct (read_store_lookup_Some w fp _ m k o Hm Hk) as (pp & url & Hpp & _ & ->).
    rewrite split_prefix_sep in Hpp. injection Hpp as <-. by exists url.
  - pose proof (read_store_shift w fp c p Hp) as Hshift.
    rewrite reload_cache_run, Hm in *.
    destruct (read_store w p fp) as [m'|e]; [|done].
    by exists m'.
Qed.

Lemma reload_drops_prefix_witness :
  let w := store_at "/a" (one_bookmark "go" "https://a.example/") nowhere in
  let st1 := (__call__ w "wgo" (configured "w|/a") init).2 in
  let st2 := (reload_cache w "/a" None st1).2 in
  (__call__ w "wgo" (configured "w|/a") init).1
  = Ok [bookmark_option None "/a" "wgo" (VStr "https://a.example/")]
  ∧ (∃ m', cache st2 = Some m'
           ∧ keys_shifted "w"%char m'
               {[ "wgo" := bookmark_option None "/a" "wgo" (VStr "https://a.example/") ]})
  ∧ __call__ w "wgo" (configured "w|/a") st2 = (Ok [], st2)
  ∧ (__call__ w "go" (configured "w|/a") st2).1
    = Ok [bookmark_option None "/a" "go" (VStr "https://a.example/")].
Proof.
  intros w st1 st2. split_and!; [reflexivity| |reflexivity..].
  destruct (reload_drops_prefix w None "w"%char "/a" _ st1 eq_refl eq_refl)
    as (_ & m' & Hreload & Hshift).
  exists m'. split; [|exact Hshift]. unfold st2. by rewrite Hreload.
Defined.

(** ** Opening a bookmark *)




(** ** How many bookmarks a store gives *)

Lemma add_rows_size (con : connection) (prefix profile_path : string)
    (fp : option string) (rows : list tuple) (final m : gmap string Option) :
  add_rows con prefix profile_path fp final rows = Ok m →
  (size final ≤ size m ≤ size final + length rows)%nat.
Proof.
  revert final. induction rows as [|row rows IH]; intros final; simpl.
  - intros [= <-]. lia.
  - destruct (add_row con prefix profile_path fp final row) as [final'|] eqn:Hrow;
      [simpl|done].
    intros Hm%IH.
    apply add_row_Ok in Hrow as [(k & url & _ & ->)|[-> _]]; [|lia].
    rewrite map_size_insert in Hm. destruct (final !! k); simpl in Hm; lia.
Qed.

(** X17. [get_bookmarks] returns at most one entry for each row of
    [moz_keywords]: the mapping is never larger than the table, and it is
    empty when the table is. *)
Theorem get_bookmarks_size (w : world) (fp : option string) (line : string)
    (pp : string * string) (con : connection) (rows : list tuple)
    (m : gmap string Option) :
  split_prefix line = Ok pp → w pp.2 = Ok con → moz_keywords con = Ok rows →
  read_store w line fp = Ok m →
  (size m ≤ length rows)%nat ∧ (rows = [] → m = ∅).
Proof.
  intros Hpp Hw Hrows (pp' & con' & rows' & ? & ? & ? & Hadd)%read_store_Ok.
  assert (pp' = pp) as -> by congruence.
  assert (con' = con) as -> by congruence.
  assert (rows' = rows) as -> by congruence.
  split.
  - apply add_rows_size in Hadd. rewrite map_size_empty in Hadd. lia.
  - intros ->. by injection Hadd as <-.
Qed.

Lemma get_bookmarks_size_witness :
  (size ({[ "go" := bookmark_option None "/a" "go" (VStr "https://a.example/") ]}
           : gmap string Option) ≤ 1)%nat.
Proof.
  exact (proj1 (get_bookmarks_size
                  (store_at "/a" (one_bookmark "go" "https://a.example/") nowhere)
                  None "/a" (EmptyString, "/a") (one_bookmark "go" "https://a.example/")
                  [[VInt 1; VStr "go"; VInt 5; VNone]] _
                  eq_refl eq_refl eq_refl eq_refl)).
Defined.
